(** * Chaos scenario runner: a shallow embedding of [tools/chaos/chaos_runner.py]

    The development follows the source file top to bottom: the Python values
    that [json.load] produces, the three data classes, the run recorder, the
    metric client, the runner with its step executor and SLO evaluator, and
    the replay printer.  Everything outside the script's own code (child
    processes, the metric HTTP endpoint, the opening of a record file,
    number and text formatting) is an operation of the [Host] class, so the
    theorems hold for every host. *)

From Stdlib Require Import ZArith NArith String Ascii List Bool Lia.
From Stdlib Require Import Floats.SpecFloat.
From stdpp Require Import base strings gmap sorting.
Import ListNotations.

#[local] Set Warnings "-register-all".
#[local] Open Scope string_scope.

(** ** Python values

    [json.load] yields [None], booleans, integers, floats, strings, lists and
    dictionaries with string keys.  A dictionary keeps its insertion order
    (the replay printer and [json.dump] both walk it in that order), hence an
    association list whose keys are pairwise distinct by construction. *)

Inductive pyval : Type :=
| PNone
| PBool (b : bool)
| PInt (z : Z)
| PFloat (f : spec_float)
| PStr (s : string)
| PList (l : list pyval)
| PDict (d : list (string * pyval)).

Definition dict : Type := list (string * pyval).

(** [d.get(k)] at the level of the association list. *)
Fixpoint dict_get (k : string) (d : dict) : option pyval :=
  match d with
  | [] => None
  | (k', v) :: d' => if String.eqb k k' then Some v else dict_get k d'
  end.

(** [d[k] = v]: overwrite in place when the key exists, append otherwise. *)
Fixpoint dict_set (k : string) (v : pyval) (d : dict) : dict :=
  match d with
  | [] => [(k, v)]
  | (k', v') :: d' =>
      if String.eqb k k' then (k', v) :: d' else (k', v') :: dict_set k v d'
  end.

(** [{**a, **b}]: a copy of [a] updated with the items of [b], in order. *)
Definition dict_merge (a b : dict) : dict :=
  fold_left (fun acc kv => dict_set (fst kv) (snd kv) acc) b a.

(** Truth value of a Python object (what [if x] and [not x] look at). *)
Definition truthy (v : pyval) : bool :=
  match v with
  | PNone => false
  | PBool b => b
  | PInt z => negb (Z.eqb z 0)
  | PFloat (S754_zero _) => false
  | PFloat _ => true
  | PStr s => negb (String.eqb s "")
  | PList l => match l with [] => false | _ => true end
  | PDict d => match d with [] => false | _ => true end
  end.

(** [v == "literal"]: only a string compares equal to a string. *)
Definition py_eq_str (v : pyval) (s : string) : bool :=
  match v with
  | PStr s' => String.eqb s' s
  | _ => false
  end.

Definition is_none (v : pyval) : bool :=
  match v with PNone => true | _ => false end.

(** ** Exceptions and results *)

Inductive exn : Type :=
| KeyError (key : string)
| ValueError (msg : string)
| TypeError (msg : string)
| AttributeError (msg : string)
| OverflowError (msg : string)
| AssertionError (msg : string)
| CalledProcessError (msg : string)
| OSError (msg : string)
| KeyboardInterrupt.

(** [isinstance(e, Exception)]: what [except Exception] catches.
    [KeyboardInterrupt] derives from [BaseException] only. *)
Definition is_Exception (e : exn) : bool :=
  match e with
  | KeyboardInterrupt => false
  | _ => true
  end.

Inductive outcome (A : Type) : Type :=
| Return (a : A)
| Raise (e : exn).

Arguments Return {A} a.
Arguments Raise {A} e.

(** [outcome] is a monad in the sense of stdpp, which gives the
    [x ← m; k] notation for sequencing calls that may raise. *)
#[export] Instance outcome_ret : MRet outcome := fun A a => Return a.

#[export] Instance outcome_bind : MBind outcome := fun A B k m =>
  match m with
  | Return a => k a
  | Raise e => Raise e
  end.

(** The interpreter operations whose failure message is the interpreter's. *)
Inductive builtin_op : Type :=
| OpFloat | OpSubscript | OpContains | OpIter | OpHash | OpGetAttr | OpCompare | OpOpen.

(** ** The host: everything the script reaches outside its own code *)

Class Host : Type := {
  (** state of the environment the steps act on *)
  World : Type;
  (** [subprocess.run(cmd, shell=True, check=True, capture_output=True,
      text=True)]: captured stdout and stderr, or the exception raised
      (a non-zero exit is [CalledProcessError]) *)
  subprocess_run : pyval -> World -> World * outcome (string * string);
  (** [urlopen(url)] followed by [json.loads] of the body *)
  urlopen_json : string -> World -> World * outcome pyval;
  (** [urllib.parse.urlencode({'query': q})] *)
  urlencode_query : pyval -> string;
  (** [repr] of a value, used by [str] for everything but strings *)
  py_repr : pyval -> string;
  (** [float(s)] on a string *)
  float_of_str : string -> outcome spec_float;
  (** text of the message the interpreter attaches to its own errors *)
  interp_msg : builtin_op -> pyval -> string;
  (** [RUN_DIR], the directory of the run records, as its path prints *)
  RUN_DIR : string;
  (** the exception that [path.open("w")] raises for the path, if any (for
      one, [FileNotFoundError] when the name has a [/] in it and the
      directory it names is not there) *)
  open_error : string -> option exn;
  (** [textwrap.dedent] *)
  textwrap_dedent : string -> string;
  (** [s.strip()] *)
  str_strip : string -> string
}.

(** ** Floats: IEEE 754 binary64, as [spec_float] *)

Definition float_of_int (z : Z) : spec_float := binary_normalize 53 1024 z 0 false.

(** [a >= b] on floats; like [SFleb] it is false as soon as one side is NaN. *)
Definition SFgeb (a b : spec_float) : bool :=
  match SFcompare a b with
  | Some Gt | Some Eq => true
  | _ => false
  end.

(** Exact order between an integer and a float (Python compares them
    without rounding the integer). *)
Definition Z_compare_float (z : Z) (f : spec_float) : option comparison :=
  match f with
  | S754_nan => None
  | S754_infinity s => Some (if s then Gt else Lt)
  | S754_zero _ => Some (Z.compare z 0)
  | S754_finite s m e =>
      let mz := if s then Z.neg m else Z.pos m in
      Some (if Z.leb 0 e then Z.compare z (mz * 2 ^ e)
            else Z.compare (z * 2 ^ (- e)) mz)
  end.

(** ** The data classes *)

Module SLOExpectation.
Record t : Type := mk {
  name : pyval;
  comparison : pyval;
  threshold : spec_float
}.
End SLOExpectation.

Module ChaosStep.
Record t : Type := mk {
  id : pyval;
  action : pyval;
  command : pyval;
  query : pyval;
  rollback : pyval;
  expected_slo : option SLOExpectation.t;
  observation : pyval
}.
End ChaosStep.

Module ChaosScenario.
Record t : Type := mk {
  id : pyval;
  title : pyval;
  description : pyval;
  impact : pyval;
  steady_state_check : pyval;
  steps : list ChaosStep.t
}.
End ChaosScenario.

(** ** The run record

    [payload] of the recorder is a dictionary with fixed keys; the key
    [failed] exists only after [abort].  What [json.dump] writes and
    [json.load] reads back is this same structure. *)

Module StepEntry.
Record t : Type := mk {
  step_id : pyval;
  action : pyval;
  status : pyval;
  detail : dict
}.
End StepEntry.

Module Payload.
Record t : Type := mk {
  scenario_id : pyval;
  scenario_title : pyval;
  started_at : string;
  note : option string;
  dry_run : bool;
  steps : list StepEntry.t;
  failed : option string
}.
End Payload.

Module Recorder.
Record t : Type := mk {
  scenario : ChaosScenario.t;
  note : option string;
  dry_run : bool;
  file_path : string;
  payload : Payload.t;
  _finalized : bool
}.
End Recorder.

(** The run directory: the content of each file, and the trace of the files
    opened for writing (most recent first). *)
Record Disk : Type := mkDisk {
  files : gmap string Payload.t;
  written : list string
}.

(** [datetime.utcnow()]: the reading of the clock when a recorder is built. *)
Record datetime : Type := mkDatetime {
  year : N;
  month : N;
  day : N;
  hour : N;
  minute : N;
  second : N;
  microsecond : N
}.

Definition digit (n : N) : ascii := ascii_of_N (48 + n mod 10).

Definition pad2 (n : N) : string :=
  String (digit (n / 10)) (String (digit n) "").

Definition pad4 (n : N) : string :=
  String (digit (n / 1000)) (String (digit (n / 100)) (pad2 n)).

(** [now.strftime("%Y%m%dT%H%M%SZ")]. *)
Definition strftime (now : datetime) : string :=
  pad4 (year now) +:+ pad2 (month now) +:+ pad2 (day now) +:+ "T" +:+
  pad2 (hour now) +:+ pad2 (minute now) +:+ pad2 (second now) +:+ "Z".

(** [RUN_DIR / name] for a relative [name] (the name of a record begins
    with the time stamp): pathlib splits the name at [/], drops the empty
    parts and the parts [.], and joins what is left to the directory. *)
Fixpoint split_slash (s : string) : list string :=
  match s with
  | EmptyString => [EmptyString]
  | String c s' =>
      if Ascii.eqb c "/"%char then EmptyString :: split_slash s'
      else match split_slash s' with
           | part :: parts => String c part :: parts
           | [] => [String c EmptyString]
           end
  end.

Definition path_parts (name : string) : list string :=
  List.filter (fun part => negb (String.eqb part "" || String.eqb part "."))
    (split_slash name).

Fixpoint join_slash (parts : list string) : string :=
  match parts with
  | [] => ""
  | part :: rest =>
      match rest with
      | [] => part
      | _ => part +:+ "/" +:+ join_slash rest
      end
  end.

Definition path_join (dir name : string) : string :=
  match path_parts name with
  | [] => dir
  | parts => dir +:+ "/" +:+ join_slash parts
  end.


(** [s.replace(" ", "_")]. *)
Fixpoint replace_space (s : string) : string :=
  match s with
  | EmptyString => EmptyString
  | String c s' =>
      String (if Ascii.eqb c " "%char then "_"%char else c) (replace_space s')
  end.

Section Runner.
Context `{H : Host}.

(** ** Interpreter operations used by the script *)

(** [str(v)], as an f-string formats a value. *)
Definition py_str (v : pyval) : string :=
  match v with
  | PStr s => s
  | PNone => "None"
  | PBool true => "True"
  | PBool false => "False"
  | _ => py_repr v
  end.

(** [float(v)]. *)
Definition py_float (v : pyval) : outcome spec_float :=
  match v with
  | PFloat f => Return f
  | PBool b => Return (float_of_int (Z.b2z b))
  | PInt z =>
      match float_of_int z with
      | S754_infinity _ => Raise (OverflowError (interp_msg OpFloat v))
      | f => Return f
      end
  | PStr s => float_of_str s
  | _ => Raise (TypeError (interp_msg OpFloat v))
  end.

(** [v[k]] with a string [k]. *)
Definition py_getitem (v : pyval) (k : string) : outcome pyval :=
  match v with
  | PDict d =>
      match dict_get k d with
      | Some x => Return x
      | None => Raise (KeyError k)
      end
  | _ => Raise (TypeError (interp_msg OpSubscript v))
  end.

(** [v.get(k)]. *)
Definition py_get (v : pyval) (k : string) : outcome pyval :=
  match v with
  | PDict d => Return (default PNone (dict_get k d))
  | _ => Raise (AttributeError (interp_msg OpGetAttr v))
  end.

(** [k in v] with a string [k]. *)
Definition py_contains (k : string) (v : pyval) : outcome bool :=
  match v with
  | PDict d => Return (bool_decide (is_Some (dict_get k d)))
  | PStr s => Return (bool_decide (is_Some (String.index 0 k s)))
  | PList l => Return (existsb (fun x => py_eq_str x k) l)
  | _ => Raise (TypeError (interp_msg OpContains v))
  end.

(** The items a [for] loop over [v] sees.  (A string is walked byte by
    byte here; only its emptiness matters below.) *)
Definition py_iter (v : pyval) : outcome (list pyval) :=
  match v with
  | PList l => Return l
  | PDict d => Return (map (fun kv => PStr (fst kv)) d)
  | PStr s => Return (map (fun c => PStr (String c "")) (list_ascii_of_string s))
  | _ => Raise (TypeError (interp_msg OpIter v))
  end.

(** [v <= t] and [v >= t] against a float [t]. *)
Definition py_le_float (v : pyval) (t : spec_float) : outcome bool :=
  match v with
  | PFloat f => Return (SFleb f t)
  | PInt z =>
      Return (match Z_compare_float z t with Some Lt | Some Eq => true | _ => false end)
  | PBool b =>
      Return (match Z_compare_float (Z.b2z b) t with
              | Some Lt | Some Eq => true | _ => false end)
  | _ => Raise (TypeError (interp_msg OpCompare v))
  end.

Definition py_ge_float (v : pyval) (t : spec_float) : outcome bool :=
  match v with
  | PFloat f => Return (SFgeb f t)
  | PInt z =>
      Return (match Z_compare_float z t with Some Gt | Some Eq => true | _ => false end)
  | PBool b =>
      Return (match Z_compare_float (Z.b2z b) t with
              | Some Gt | Some Eq => true | _ => false end)
  | _ => Raise (TypeError (interp_msg OpCompare v))
  end.

(** ** [SLOExpectation] *)

(** [SLOExpectation.__post_init__]: the membership test in the set literal
    hashes the value first. *)
Definition __post_init__ (self : SLOExpectation.t) : outcome unit :=
  match SLOExpectation.comparison self with
  | PList _ | PDict _ =>
      Raise (TypeError (interp_msg OpHash (SLOExpectation.comparison self)))
  | c =>
      if py_eq_str c "<=" || py_eq_str c ">=" then Return tt
      else Raise (ValueError ("不支持的 comparison: " +:+ py_str c))
  end.

(** The constructor call [SLOExpectation(name=…, comparison=…, threshold=…)]. *)
Definition new_SLOExpectation (name comparison : pyval) (threshold : spec_float)
  : outcome SLOExpectation.t :=
  let self := SLOExpectation.mk name comparison threshold in
  _ ← __post_init__ self;
  Return self.

(** ** [ChaosScenario.from_dict] *)

(** Body of the loop over [data["steps"]] for one [raw_step]. *)
Definition parse_step (raw_step : pyval) : outcome ChaosStep.t :=
  has ← py_contains "expected_slo" raw_step;
  slo ← (if (has : bool) then
           es ← py_getitem raw_step "expected_slo";
           if truthy es then
             name ← py_getitem es "name";
             comparison ← py_getitem es "comparison";
             raw_threshold ← py_getitem es "threshold";
             threshold ← py_float raw_threshold;
             slo ← new_SLOExpectation name comparison threshold;
             Return (Some slo)
           else Return None
         else Return None);
  id ← py_getitem raw_step "id";
  action ← py_getitem raw_step "action";
  command ← py_get raw_step "command";
  query ← py_get raw_step "query";
  rollback ← py_get raw_step "rollback";
  observation ← py_get raw_step "observation";
  Return (ChaosStep.mk id action command query rollback slo observation).

(** The loop itself: the first step that raises ends it. *)
Fixpoint parse_steps (raw_steps : list pyval) : outcome (list ChaosStep.t) :=
  match raw_steps with
  | [] => Return []
  | raw_step :: rest =>
      step ← parse_step raw_step;
      steps ← parse_steps rest;
      Return (step :: steps)
  end.

Definition from_dict (data : dict) : outcome ChaosScenario.t :=
  raw ← py_getitem (PDict data) "steps";
  raw_steps ← py_iter raw;
  steps ← parse_steps raw_steps;
  match steps with
  | [] =>
      id ← py_getitem (PDict data) "id";
      Raise (ValueError ("场景 " +:+ py_str id +:+ " 未定义任何步骤"))
  | _ =>
      id ← py_getitem (PDict data) "id";
      title ← py_getitem (PDict data) "title";
      description ← py_getitem (PDict data) "description";
      impact ← py_getitem (PDict data) "impact";
      Return (ChaosScenario.mk id title description impact
                (default (PDict []) (dict_get "steady_state_check" data)) steps)
  end.

(** ** [ChaosRunRecorder] *)

(** [ChaosRunRecorder.__init__], given the clock reading [now].  (The call
    [RUN_DIR.mkdir] only makes sure the directory is there.)  [file_path]
    is the path as it prints. *)
Definition new_ChaosRunRecorder (scenario : ChaosScenario.t) (note : option string)
    (dry_run : bool) (now : datetime) : Recorder.t :=
  let timestamp := strftime now in
  let safe_note :=
    match note with
    | Some n => if String.eqb n "" then "" else replace_space n
    | None => ""
    end in
  let suffix := if String.eqb safe_note "" then "" else "_" +:+ safe_note in
  let file_path :=
    path_join RUN_DIR
      (timestamp +:+ "_" +:+ py_str (ChaosScenario.id scenario) +:+ suffix
         +:+ ".json") in
  Recorder.mk scenario note dry_run file_path
    (Payload.mk (ChaosScenario.id scenario) (ChaosScenario.title scenario)
       timestamp note dry_run [] None)
    false.

Definition set_payload (r : Recorder.t) (p : Payload.t) : Recorder.t :=
  Recorder.mk (Recorder.scenario r) (Recorder.note r) (Recorder.dry_run r)
    (Recorder.file_path r) p (Recorder._finalized r).

Definition append_step (r : Recorder.t) (step : ChaosStep.t) (status : pyval)
    (detail : dict) : Recorder.t :=
  let p := Recorder.payload r in
  set_payload r
    (Payload.mk (Payload.scenario_id p) (Payload.scenario_title p)
       (Payload.started_at p) (Payload.note p) (Payload.dry_run p)
       (Payload.steps p ++
          [StepEntry.mk (ChaosStep.id step) (ChaosStep.action step) status detail])
       (Payload.failed p)).

(** [finalize] is given in two parts: the recorder and the disk after the
    call, and the exception the call ends with, if any.  When the file
    cannot be opened the call raises before anything is written and before
    the flag is set. *)
Definition finalize (r : Recorder.t) (d : Disk) : Recorder.t * Disk :=
  if Recorder._finalized r then (r, d)
  else
    match open_error (Recorder.file_path r) with
    | Some _ => (r, d)
    | None =>
        (Recorder.mk (Recorder.scenario r) (Recorder.note r) (Recorder.dry_run r)
           (Recorder.file_path r) (Recorder.payload r) true,
         mkDisk (<[Recorder.file_path r := Recorder.payload r]> (files d))
           (Recorder.file_path r :: written d))
    end.

Definition finalize_raises (r : Recorder.t) : option exn :=
  if Recorder._finalized r then None else open_error (Recorder.file_path r).

Definition abort (r : Recorder.t) (error : string) (d : Disk) : Recorder.t * Disk :=
  let p := Recorder.payload r in
  finalize
    (set_payload r
       (Payload.mk (Payload.scenario_id p) (Payload.scenario_title p)
          (Payload.started_at p) (Payload.note p) (Payload.dry_run p)
          (Payload.steps p) (Some error)))
    d.

(** [abort] raises what its call of [finalize] raises. *)
Definition abort_raises (r : Recorder.t) : option exn := finalize_raises r.

(** ** [MetricClient] *)

Definition fetch_value (endpoint : option string) (query : pyval) (w : World)
  : World * outcome pyval :=
  match endpoint with
  | None => (w, Return PNone)
  | Some e =>
      if String.eqb e "" then (w, Return PNone)
      else
        let url := e +:+ "?" +:+ urlencode_query query in
        match urlopen_json url w with
        | (w', Raise ex) => (w', Raise ex)
        | (w', Return payload) =>
            (w', value ← py_get payload "value";
                 if is_none value then Return PNone
                 else f ← py_float value; Return (PFloat f))
        end
  end.

(** ** [ChaosRunner] *)

(** [ChaosRunner.list_scenarios]: the scenarios in the order of their
    sorted keys.  Python orders strings by code point, which on their UTF-8
    bytes is the byte-wise order [String.le]. *)
Definition list_scenarios (scenarios : gmap string ChaosScenario.t)
  : list ChaosScenario.t :=
  omap (λ key, scenarios !! key) (merge_sort String.le (elements (dom scenarios))).

Definition show (scenarios : gmap string ChaosScenario.t) (scenario_id : string)
  : outcome ChaosScenario.t :=
  match scenarios !! scenario_id with
  | Some scenario => Return scenario
  | None => Raise (KeyError ("未找到场景 " +:+ scenario_id))
  end.

Definition _execute_step (endpoint : option string) (step : ChaosStep.t)
    (dry_run : bool) (w : World) : World * outcome dict :=
  let detail : dict :=
    [("status", PStr "success"); ("observation", ChaosStep.observation step)] in
  if py_eq_str (ChaosStep.action step) "shell" then
    if negb (truthy (ChaosStep.command step)) then
      (w, Raise (ValueError ("步骤 " +:+ py_str (ChaosStep.id step) +:+ " 缺少 command")))
    else
      let detail := dict_set "command" (ChaosStep.command step) detail in
      if dry_run then
        (w, Return (dict_set "output" (PStr "dry-run 未执行")
                      (dict_set "status" (PStr "skipped") detail)))
      else
        match subprocess_run (ChaosStep.command step) w with
        | (w', Raise ex) => (w', Raise ex)
        | (w', Return (out, err)) =>
            (w', Return (dict_set "stderr" (PStr err)
                           (dict_set "stdout" (PStr out) detail)))
        end
  else if py_eq_str (ChaosStep.action step) "check-metric" then
    if negb (truthy (ChaosStep.query step)) then
      (w, Raise (ValueError ("步骤 " +:+ py_str (ChaosStep.id step) +:+ " 缺少 query")))
    else
      match fetch_value endpoint (ChaosStep.query step) w with
      | (w', Raise ex) => (w', Raise ex)
      | (w', Return value) =>
          let detail :=
            dict_set "metric_value" value
              (dict_set "metric_query" (ChaosStep.query step) detail) in
          (w', Return (if is_none value
                       then dict_set "status" (PStr "skipped") detail
                       else detail))
      end
  else
    (w, Raise (ValueError ("未知的步骤类型: " +:+ py_str (ChaosStep.action step)))).

(** [_assert_slo] returns, next to what the call yields, the local [report]
    as it stands when the call ends (empty while it is not yet bound); the
    interpreter drops it when the call raises. *)
Definition _assert_slo (step : ChaosStep.t) (result : dict) : dict * outcome dict :=
  match ChaosStep.expected_slo step with
  | None => ([], Return [])
  | Some slo =>
      let report : dict :=
        [("slo_name", SLOExpectation.name slo);
         ("slo_threshold", PFloat (SLOExpectation.threshold slo));
         ("slo_comparison", SLOExpectation.comparison slo)] in
      let value := default PNone (dict_get "metric_value" result) in
      if is_none value then
        let report := dict_set "slo_status" (PStr "pending") report in
        (report, Return report)
      else
        let report := dict_set "slo_value" value report in
        let comparison := SLOExpectation.comparison slo in
        let threshold := SLOExpectation.threshold slo in
        match (if py_eq_str comparison "<=" then py_le_float value threshold
               else py_ge_float value threshold) with
        | Raise ex => (report, Raise ex)
        | Return passed =>
            if negb passed then
              (dict_set "slo_status" (PStr "violated") report,
               Raise (AssertionError
                        ("步骤 " +:+ py_str (ChaosStep.id step) +:+ " 的指标 "
                         +:+ py_str (SLOExpectation.name slo) +:+ " = "
                         +:+ py_str value +:+ " 未满足 " +:+ py_str comparison
                         +:+ " " +:+ py_str (PFloat threshold))))
            else
              let report := dict_set "slo_status" (PStr "met") report in
              (report, Return report)
        end
  end.

(** [str(exc)]. *)
Definition str_exn (e : exn) : string :=
  match e with
  | KeyError k => py_repr (PStr k)
  | ValueError m | TypeError m | AttributeError m | OverflowError m
  | AssertionError m | CalledProcessError m | OSError m => m
  | KeyboardInterrupt => ""
  end.

(** Body of the [for] loop of [run]: the exception, if one is raised. *)
Definition run_step (endpoint : option string) (dry_run : bool) (step : ChaosStep.t)
    (recorder : Recorder.t) (w : World) : World * Recorder.t * option exn :=
  match _execute_step endpoint step dry_run w with
  | (w', Raise ex) => (w', recorder, Some ex)
  | (w', Return result) =>
      match snd (_assert_slo step result) with
      | Raise ex => (w', recorder, Some ex)
      | Return slo_report =>
          match py_getitem (PDict result) "status" with
          | Raise ex => (w', recorder, Some ex)
          | Return status =>
              (w', append_step recorder step status (dict_merge result slo_report),
               None)
          end
      end
  end.

Fixpoint run_steps (endpoint : option string) (dry_run : bool)
    (steps : list ChaosStep.t) (recorder : Recorder.t) (w : World)
  : World * Recorder.t * option exn :=
  match steps with
  | [] => (w, recorder, None)
  | step :: rest =>
      match run_step endpoint dry_run step recorder w with
      | (w', recorder', None) => run_steps endpoint dry_run rest recorder' w'
      | stopped => stopped
      end
  end.

(** [ChaosRunner.run]: the path of the record, or the exception the call
    ends with.  The [try] block ends with the exception of the loop or with
    that of [finalize]; the handler takes an [Exception] only, calls
    [abort], and re-raises unless [abort] itself raises. *)
Definition run (scenarios : gmap string ChaosScenario.t) (endpoint : option string)
    (scenario_id : string) (dry_run : bool) (note : option string)
    (now : datetime) (w : World) (d : Disk) : World * Disk * outcome string :=
  match show scenarios scenario_id with
  | Raise ex => (w, d, Raise ex)
  | Return scenario =>
      let recorder := new_ChaosRunRecorder scenario note dry_run now in
      let '(w', recorder', stop) :=
        run_steps endpoint dry_run (ChaosScenario.steps scenario) recorder w in
      let '(recorder1, d1, tried) :=
        match stop with
        | Some exc => (recorder', d, Some exc)
        | None =>
            let '(recorder1, d1) := finalize recorder' d in
            (recorder1, d1, finalize_raises recorder')
        end in
      match tried with
      | None => (w', d1, Return (Recorder.file_path recorder1))
      | Some exc =>
          if is_Exception exc then
            let '(_, d2) := abort recorder1 (str_exn exc) d1 in
            match abort_raises recorder1 with
            | Some exc' => (w', d2, Raise exc')
            | None => (w', d2, Raise exc)
            end
          else (w', d1, Raise exc)
      end
  end.

(** ** [replay]

    What [replay] prints for a stored record, one string for each call of
    [print]: the header, the title of the listing, then the lines of the
    steps. *)









(** ** Vocabulary of the properties *)

(** The evaluator returns its report, and the report says [status]. *)
Definition slo_returns (status : string) (step : ChaosStep.t) (result : dict) : Prop :=
  ∃ report, _assert_slo step result = (report, Return report)
            ∧ dict_get "slo_status" report = Some (PStr status).

(** The evaluator raises [AssertionError], its report marked [violated]. *)
Definition slo_violated (step : ChaosStep.t) (result : dict) : Prop :=
  ∃ report msg, _assert_slo step result = (report, Raise (AssertionError msg))
                ∧ dict_get "slo_status" report = Some (PStr "violated").

(** The comparison operators [__post_init__] lets through. *)
Definition supported (c : pyval) : Prop := c = PStr "<=" ∨ c = PStr ">=".

(** The invariants of a step that the executor checks. *)
Definition well_formed (step : ChaosStep.t) : Prop :=
  (py_eq_str (ChaosStep.action step) "shell" = true
   ∨ py_eq_str (ChaosStep.action step) "check-metric" = true)
  ∧ (py_eq_str (ChaosStep.action step) "shell" = true →
     truthy (ChaosStep.command step) = true)
  ∧ (py_eq_str (ChaosStep.action step) "check-metric" = true →
     truthy (ChaosStep.query step) = true).





(** The recorder [r] with [entries] added at the end of its step list. *)
Definition with_steps (r : Recorder.t) (entries : list StepEntry.t) : Recorder.t :=
  let p := Recorder.payload r in
  set_payload r
    (Payload.mk (Payload.scenario_id p) (Payload.scenario_title p)
       (Payload.started_at p) (Payload.note p) (Payload.dry_run p)
       (Payload.steps p ++ entries) (Payload.failed p)).

(** The disk [d] after [payload] has been written at [path]. *)
Definition store (path : string) (payload : Payload.t) (d : Disk) : Disk :=
  mkDisk (<[path := payload]> (files d)) (path :: written d).

(** The payload [p] with its [failed] key set. *)
Definition with_failed (p : Payload.t) (error : string) : Payload.t :=
  Payload.mk (Payload.scenario_id p) (Payload.scenario_title p)
    (Payload.started_at p) (Payload.note p) (Payload.dry_run p)
    (Payload.steps p) (Some error).

(** [entry] is what the loop records for [step]. *)
Definition recorded (step : ChaosStep.t) (entry : StepEntry.t) : Prop :=
  StepEntry.step_id entry = ChaosStep.id step
  ∧ StepEntry.action entry = ChaosStep.action step
  ∧ dict_get "status" (StepEntry.detail entry) = Some (StepEntry.status entry).


(** Every entry the loop has added shows its status in its detail. *)
Definition status_in_detail (entry : StepEntry.t) : Prop :=
  dict_get "status" (StepEntry.detail entry) = Some (StepEntry.status entry).



(** The ranges of the fields of a [datetime]. *)
Definition valid_datetime (t : datetime) : Prop :=
  (1 ≤ year t ≤ 9999 ∧ 1 ≤ month t ≤ 12 ∧ 1 ≤ day t ≤ 31
   ∧ hour t < 24 ∧ minute t < 60 ∧ second t < 60
   ∧ microsecond t < 1000000)%N.

(** Two clock readings within the same second. *)
Definition same_second (a b : datetime) : Prop :=
  year a = year b ∧ month a = month b ∧ day a = day b
  ∧ hour a = hour b ∧ minute a = minute b ∧ second a = second b.

(** The keys of a dictionary, in order. *)
Definition keys (d : dict) : list string := map fst d.

(** What the loop of [run] puts in the record for [step]: the result of the
    executor followed by the report of the evaluator. *)
Definition entry_of (endpoint : option string) (dry_run : bool)
    (step : ChaosStep.t) (w w' : World) (entry : StepEntry.t) : Prop :=
  ∃ result report,
    _execute_step endpoint step dry_run w = (w', Return result)
    ∧ snd (_assert_slo step result) = Return report
    ∧ StepEntry.step_id entry = ChaosStep.id step
    ∧ StepEntry.action entry = ChaosStep.action step
    ∧ dict_get "status" result = Some (StepEntry.status entry)
    ∧ StepEntry.detail entry = (result ++ report)%list.

(** The SLO verdicts a stored entry can carry. *)
Definition slo_verdict_stored (entry : StepEntry.t) : Prop :=
  dict_get "slo_status" (StepEntry.detail entry) = None
  ∨ dict_get "slo_status" (StepEntry.detail entry) = Some (PStr "pending")
  ∨ dict_get "slo_status" (StepEntry.detail entry) = Some (PStr "met").

(** [step] is built from the raw step [raw]: [id] and [action] read with
    [raw[...]], the optional fields with [raw.get(...)]. *)
Definition built_from (raw : pyval) (step : ChaosStep.t) : Prop :=
  ∃ d, raw = PDict d
    ∧ dict_get "id" d = Some (ChaosStep.id step)
    ∧ dict_get "action" d = Some (ChaosStep.action step)
    ∧ ChaosStep.command step = default PNone (dict_get "command" d)
    ∧ ChaosStep.query step = default PNone (dict_get "query" d)
    ∧ ChaosStep.rollback step = default PNone (dict_get "rollback" d)
    ∧ ChaosStep.observation step = default PNone (dict_get "observation" d).

(** The expectation [slo] is built from the raw [expected_slo] value [es]. *)
Definition slo_built_from (es : pyval) (slo : SLOExpectation.t) : Prop :=
  py_getitem es "name" = Return (SLOExpectation.name slo)
  ∧ py_getitem es "comparison" = Return (SLOExpectation.comparison slo)
  ∧ ∃ raw_threshold, py_getitem es "threshold" = Return raw_threshold
      ∧ py_float raw_threshold = Return (SLOExpectation.threshold slo).

End Runner.

(** ** A concrete host

    The world is the list of the commands run so far (most recent first);
    the metric endpoint answers from a fixed table. *)

Module Demo.

Definition demo_repr (v : pyval) : string :=
  match v with
  | PStr s => "'" +:+ s +:+ "'"
  | PInt _ => "<int>"
  | PFloat _ => "<float>"
  | PList _ => "<list>"
  | PDict _ => "<dict>"
  | _ => "<object>"
  end.

Definition demo_run (cmd : pyval) (w : list pyval)
  : list pyval * outcome (string * string) :=
  if py_eq_str cmd "exit 1"
  then (cmd :: w, Raise (CalledProcessError "Command 'exit 1' returned non-zero exit status 1."))
  else (cmd :: w, Return ("", "")).

(** Only [runs] exists: a name with a [/] in it cannot be opened. *)
Definition demo_open (path : string) : option exn :=
  match String.index 5 "/" path with
  | Some _ =>
      Some (OSError ("[Errno 2] No such file or directory: '" +:+ path +:+ "'"))
  | None => None
  end.

(** White space of the demo host: the blank and the line break. *)
Definition demo_blank (c : ascii) : bool :=
  Ascii.eqb c " "%char || Ascii.eqb c (ascii_of_nat 10).

Fixpoint demo_lstrip (s : string) : string :=
  match s with
  | String c s' => if demo_blank c then demo_lstrip s' else s
  | EmptyString => EmptyString
  end.

Fixpoint demo_rstrip (s : string) : string :=
  match s with
  | String c s' =>
      match demo_rstrip s' with
      | EmptyString => if demo_blank c then EmptyString else String c EmptyString
      | t => String c t
      end
  | EmptyString => EmptyString
  end.

Definition demo_strip (s : string) : string := demo_rstrip (demo_lstrip s).

(** Removal of a margin of eight blanks after every line break. *)
Fixpoint demo_dedent (s : string) : string :=
  match s with
  | String c s' =>
      if Ascii.eqb c (ascii_of_nat 10) then
        String c (demo_dedent
                    (match s' with
                     | String " " (String " " (String " " (String " "
                         (String " " (String " " (String " " (String " " t)))))))
                       => t
                     | _ => s'
                     end))
      else String c (demo_dedent s')
  | EmptyString => EmptyString
  end.

Definition host (metric : string -> outcome pyval) : Host := {|
  World := list pyval;
  subprocess_run := demo_run;
  urlopen_json := fun url w => (w, metric url);
  urlencode_query := fun q => "query=" +:+ match q with PStr s => s | _ => "" end;
  py_repr := demo_repr;
  float_of_str := fun s => Raise (ValueError ("could not convert string to float: " +:+ s));
  interp_msg := fun _ v => demo_repr v;
  RUN_DIR := "runs";
  open_error := demo_open;
  textwrap_dedent := demo_dedent;
  str_strip := demo_strip
|}.

(** A backend that answers [{"value": v}] to every query. *)
Definition answers (v : pyval) : string -> outcome pyval :=
  fun _ => Return (PDict [("value", v)]).

Definition f80 : spec_float := float_of_int 80.
Definition f100 : spec_float := float_of_int 100.

(** The three-step scenario: a command, a metric check guarded by
    [latency <= 100], a command. *)
Definition step1 : ChaosStep.t :=
  ChaosStep.mk (PStr "s1") (PStr "shell") (PStr "echo ok") PNone PNone None PNone.

Definition step2 : ChaosStep.t :=
  ChaosStep.mk (PStr "s2") (PStr "check-metric") PNone (PStr "q1") PNone
    (Some (SLOExpectation.mk (PStr "latency") (PStr "<=") f100)) PNone.

Definition step3 : ChaosStep.t :=
  ChaosStep.mk (PStr "s3") (PStr "shell") (PStr "echo done") PNone PNone None PNone.

Definition scenario : ChaosScenario.t :=
  ChaosScenario.mk (PStr "demo") (PStr "Demo") (PStr "") (PStr "") (PDict [])
    [step1; step2; step3].

Definition catalog : gmap string ChaosScenario.t := {[ "demo" := scenario ]}.

Definition t0 : datetime := mkDatetime 2026 11 4 10 3 7 0.

(** Half a second later. *)
Definition t0' : datetime := mkDatetime 2026 11 4 10 3 7 500000.

Definition empty_disk : Disk := mkDisk ∅ [].

(** The endpoint answers 80, within the expectation, or 150, beyond it. *)
Definition host80 : Host := host (answers (PInt 80)).
Definition host150 : Host := host (answers (PInt 150)).

Definition endpoint : option string := Some "http://monitor/api".

(** The result of a metric check that read 80. *)
Definition result80 : dict :=
  [("status", PStr "success"); ("observation", PNone);
   ("metric_query", PStr "q1"); ("metric_value", PFloat f80)].


(** The result of a metric check without an endpoint. *)
Definition result_unanswered : dict :=
  [("status", PStr "skipped"); ("observation", PNone);
   ("metric_query", PStr "q1"); ("metric_value", PNone)].

(** Steps that break an invariant of the data model. *)
Definition shell_without_command : ChaosStep.t :=
  ChaosStep.mk (PStr "b1") (PStr "shell") PNone PNone PNone None PNone.

(** A scenario definition, as read from its JSON file, with a shell step
    that has no command, a metric check that has no query, a step of an
    unknown kind and a step whose expectation is an empty object. *)
Definition raw_scenario : dict :=
  [("id", PStr "broken"); ("title", PStr "Broken"); ("description", PStr "");
   ("impact", PStr "");
   ("steps",
    PList [PDict [("id", PStr "b1"); ("action", PStr "shell")];
           PDict [("id", PStr "b2"); ("action", PStr "check-metric")];
           PDict [("id", PStr "b3"); ("action", PStr "http")];
           PDict [("id", PStr "b4"); ("action", PStr "shell");
                  ("command", PStr "echo ok"); ("expected_slo", PDict [])]])].

Definition broken_scenario : ChaosScenario.t :=
  ChaosScenario.mk (PStr "broken") (PStr "Broken") (PStr "") (PStr "") (PDict [])
    [shell_without_command;
     ChaosStep.mk (PStr "b2") (PStr "check-metric") PNone PNone PNone None PNone;
     ChaosStep.mk (PStr "b3") (PStr "http") PNone PNone PNone None PNone;
     ChaosStep.mk (PStr "b4") (PStr "shell") (PStr "echo ok") PNone PNone None PNone].

(** The record a dry run of the demo scenario leaves, and its path. *)
Definition dry_path : string := "runs/20261104T100307Z_demo.json".

Definition dry_disk : Disk :=
  snd (fst (run (H := host80) catalog None "demo" true None t0 [] empty_disk)).

(** The endpoint answers 0. *)
Definition host0 : Host := host (answers (PInt 0)).

(** The raw form of the guarded metric check, and an expectation that has
    a name only. *)
Definition raw_step2 : dict :=
  [("id", PStr "s2"); ("action", PStr "check-metric"); ("query", PStr "q1");
   ("expected_slo",
    PDict [("name", PStr "latency"); ("comparison", PStr "<=");
           ("threshold", PInt 100)])].

Definition raw_step_nameless : dict :=
  [("id", PStr "s2"); ("action", PStr "check-metric"); ("query", PStr "q1");
   ("expected_slo", PDict [("name", PStr "latency")])].

(** A definition whose second step has no [id], and one without steps. *)
Definition raw_second_invalid : dict :=
  [("id", PStr "demo"); ("title", PStr "Demo"); ("description", PStr "");
   ("impact", PStr "");
   ("steps",
    PList ([PDict [("id", PStr "s1"); ("action", PStr "shell");
                   ("command", PStr "echo ok")]]
           ++ PDict [("action", PStr "shell")]
           :: [PDict [("id", PStr "s3"); ("action", PStr "shell")]]))].

Definition raw_no_steps : dict :=
  [("id", PStr "empty"); ("title", PStr "Empty"); ("steps", PList [])].

(** A recorder at the start of a run, and calls made on it after sealing. *)
Definition recorder0 : Recorder.t :=
  new_ChaosRunRecorder (H := host80) scenario None false t0.


(** The record of the dry run, and the disk after the run that the answer
    150 aborts. *)
Definition dry_payload : Payload.t :=
  default (Payload.mk PNone PNone "" None false [] None)
    (files dry_disk !! dry_path).



(** The endpoint cannot be reached. *)
Definition host_down : Host := host (λ _, Raise (OSError "connection refused")).

(** The operator interrupts the request to the endpoint. *)
Definition host_interrupted : Host := host (λ _, Raise KeyboardInterrupt).

End Demo.

(** * Properties *)

Section Properties.
Context `{H : Host}.

(** ** The SLO evaluator *)

Lemma SFeqb_SFleb a b : SFeqb a b = true → SFleb a b = true.
Proof. unfold SFeqb, SFleb. destruct (SFcompare a b) as [[ | | ]|]; done. Qed.

Lemma SFeqb_SFgeb a b : SFeqb a b = true → SFgeb a b = true.
Proof. unfold SFeqb, SFgeb. destruct (SFcompare a b) as [[ | | ]|]; done. Qed.

(** What the evaluator does once a float value is there, in terms of the
    boolean [passed] it computes. *)
Lemma assert_slo_value step slo result v :
  ChaosStep.expected_slo step = Some slo →
  dict_get "metric_value" result = Some (PFloat v) →
  let passed :=
    if py_eq_str (SLOExpectation.comparison slo) "<="
    then SFleb v (SLOExpectation.threshold slo)
    else SFgeb v (SLOExpectation.threshold slo) in
  if passed then slo_returns "met" step result else slo_violated step result.
Proof.
  intros Hslo Hval. unfold slo_returns, slo_violated, _assert_slo.
  rewrite Hslo, Hval. simpl.
  destruct (py_eq_str (SLOExpectation.comparison slo) "<="); simpl.
  - destruct (SFleb v (SLOExpectation.threshold slo)); simpl.
    + eexists; split; reflexivity.
    + do 2 eexists; split; reflexivity.
  - destruct (SFgeb v (SLOExpectation.threshold slo)); simpl.
    + eexists; split; reflexivity.
    + do 2 eexists; split; reflexivity.
Qed.

Lemma slo_met_not_violated step result :
  slo_returns "met" step result → slo_violated step result → False.
Proof. intros (r & Hr & _) (r' & m & Hr' & _). congruence. Qed.

(** C1. With an expectation [<= T] and a metric value [V] in the result the
    evaluator passes exactly when [V <= T], with [>= T] exactly when
    [V >= T]; [V = T] passes in both directions.  Passing means that the
    report is returned with status [met]; otherwise the report is marked
    [violated] and the call raises instead of returning. *)
Theorem assert_slo_threshold step slo result v :
  ChaosStep.expected_slo step = Some slo →
  dict_get "metric_value" result = Some (PFloat v) →
  let c := SLOExpectation.comparison slo in
  let T := SLOExpectation.threshold slo in
  (c = PStr "<=" → (slo_returns "met" step result ↔ SFleb v T = true))
  ∧ (c = PStr ">=" → (slo_returns "met" step result ↔ SFgeb v T = true))
  ∧ (c = PStr "<=" ∨ c = PStr ">=" → SFeqb v T = true → slo_returns "met" step result)
  ∧ (¬ slo_returns "met" step result → slo_violated step result).
Proof.
  intros Hslo Hval c T.
  pose proof (assert_slo_value step slo result v Hslo Hval) as Hv.
  cbn zeta in Hv. fold c T in Hv.
  split; [|split; [|split]].
  - intros Hc. rewrite Hc in Hv. cbn in Hv. split.
    + intros Hm. destruct (SFleb v T); [done|].
      destruct (slo_met_not_violated _ _ Hm Hv).
    + intros Hle. by rewrite Hle in Hv.
  - intros Hc. rewrite Hc in Hv. cbn in Hv. split.
    + intros Hm. destruct (SFgeb v T); [done|].
      destruct (slo_met_not_violated _ _ Hm Hv).
    + intros Hge. by rewrite Hge in Hv.
  - intros [Hc|Hc] Heq; rewrite Hc in Hv; cbn in Hv.
    + by rewrite (SFeqb_SFleb _ _ Heq) in Hv.
    + by rewrite (SFeqb_SFgeb _ _ Heq) in Hv.
  - intros Hn. destruct (if py_eq_str c "<=" then SFleb v T else SFgeb v T); tauto.
Qed.

(** A shell step never puts a metric value in its result. *)
Lemma execute_shell_no_metric endpoint step dry_run w w' result :
  py_eq_str (ChaosStep.action step) "shell" = true →
  _execute_step endpoint step dry_run w = (w', Return result) →
  dict_get "metric_value" result = None.
Proof.
  unfold _execute_step. intros ->.
  destruct (truthy (ChaosStep.command step)); simpl; [|congruence].
  destruct dry_run.
  - intros [= <- <-]. reflexivity.
  - destruct (subprocess_run _ w) as [w1 [[out err]|ex]]; [|congruence].
    intros [= <- <-]. reflexivity.
Qed.

(** Without a configured endpoint a metric check stores [None]. *)
Lemma execute_unconfigured_no_metric step dry_run w w' result :
  py_eq_str (ChaosStep.action step) "shell" = false →
  _execute_step None step dry_run w = (w', Return result) →
  w' = w ∧ dict_get "metric_value" result = Some PNone
  ∧ dict_get "status" result = Some (PStr "skipped").
Proof.
  unfold _execute_step. intros ->.
  destruct (py_eq_str (ChaosStep.action step) "check-metric"); [|congruence].
  destruct (truthy (ChaosStep.query step)); simpl; [|congruence].
  intros [= <- <-]. done.
Qed.

(** C5. A step with an expectation whose result holds no metric value (the
    key is missing, as after a shell step, or bound to [None], as after an
    unanswered metric check) gets the report with status [pending]: the
    evaluator returns it, reports neither [met] nor [violated], does not
    raise, and the loop of [run] records the step and goes on. *)
Theorem assert_slo_pending step slo result :
  ChaosStep.expected_slo step = Some slo →
  default PNone (dict_get "metric_value" result) = PNone →
  slo_returns "pending" step result
  ∧ ¬ slo_returns "met" step result
  ∧ ¬ slo_violated step result
  ∧ ∀ endpoint dry_run recorder w w' status,
      _execute_step endpoint step dry_run w = (w', Return result) →
      dict_get "status" result = Some status →
      ∃ report,
        run_step endpoint dry_run step recorder w
        = (w', append_step recorder step status (dict_merge result report), None).
Proof.
  intros Hslo Hval.
  assert (Hrun : ∃ report, _assert_slo step result = (report, Return report)
                           ∧ dict_get "slo_status" report = Some (PStr "pending")).
  { unfold _assert_slo. rewrite Hslo, Hval. simpl. eexists; split; reflexivity. }
  destruct Hrun as (report & Hrun & Hst).
  split; [by exists report|]. split; [|split].
  - intros (r & Hr & Hm). congruence.
  - intros (r & m & Hr & _). congruence.
  - intros endpoint dry_run recorder w w' status Hex Hstatus.
    exists report. unfold run_step. rewrite Hex, Hrun. simpl.
    by rewrite Hstatus.
Qed.

(** ** The step executor *)


(** ** Construction of a scenario *)

(** Case analysis on the calls sequenced before a [Return]. *)
Ltac bind_inv H :=
  unfold mbind, outcome_bind, mret, outcome_ret in H;
  repeat (simpl in H;
    match type of H with
    | match ?m with Return _ => _ | Raise _ => _ end = Return _ =>
        let E := fresh "E" in destruct m eqn:E; [|discriminate H]
    | (if ?b then _ else _) = Return _ =>
        lazymatch type of b with
        | bool => let E := fresh "E" in destruct b eqn:E
        end
    | Raise _ = Return _ => discriminate H
    end).

Lemma post_init_supported self :
  __post_init__ self = Return tt → supported (SLOExpectation.comparison self).
Proof.
  unfold __post_init__, supported.
  destruct (SLOExpectation.comparison self) as [ |b|z|f|s|l|d]; simpl; try discriminate.
  destruct (String.eqb_spec s "<=") as [->|_]; [auto|].
  destruct (String.eqb_spec s ">=") as [->|_]; [auto|discriminate].
Qed.

Lemma new_SLOExpectation_inv name c t slo :
  new_SLOExpectation name c t = Return slo →
  slo = SLOExpectation.mk name c t ∧ supported c.
Proof.
  unfold new_SLOExpectation. intros Hn. bind_inv Hn.
  injection Hn as <-. split; [done|].
  destruct a. by apply (post_init_supported (SLOExpectation.mk name c t)).
Qed.

Lemma parse_step_supported raw step slo :
  parse_step raw = Return step →
  ChaosStep.expected_slo step = Some slo →
  supported (SLOExpectation.comparison slo).
Proof.
  unfold parse_step. intros Hp Hs. bind_inv Hp. injection Hp as <-.
  simpl in Hs. subst.
  match goal with E : _ = Return (Some slo) |- _ => rename E into Hslo end.
  bind_inv Hslo; try discriminate Hslo. injection Hslo as ->.
  match goal with E : new_SLOExpectation _ _ _ = Return _ |- _ =>
    apply new_SLOExpectation_inv in E; destruct E as [-> ?] end.
  done.
Qed.

Lemma parse_steps_lookup raws steps i raw :
  parse_steps raws = Return steps →
  raws !! i = Some raw →
  ∃ step, steps !! i = Some step ∧ parse_step raw = Return step.
Proof.
  revert steps i. induction raws as [|r raws IH]; intros steps i Hp Hi; [done|].
  simpl in Hp. bind_inv Hp. injection Hp as <-.
  destruct i as [|i]; simpl in Hi.
  - injection Hi as <-. by eexists.
  - simpl. by apply IH.
Qed.

Lemma parse_steps_Forall (P : ChaosStep.t → Prop) raws steps :
  (∀ raw step, parse_step raw = Return step → P step) →
  parse_steps raws = Return steps → Forall P steps.
Proof.
  intros HP. revert steps. induction raws as [|r raws IH]; intros steps Hp; simpl in Hp.
  - injection Hp as <-. constructor.
  - bind_inv Hp. injection Hp as <-. constructor; eauto.
Qed.

Lemma from_dict_steps data sc :
  from_dict data = Return sc →
  ∃ raw raws, dict_get "steps" data = Some raw ∧ py_iter raw = Return raws
    ∧ parse_steps raws = Return (ChaosScenario.steps sc)
    ∧ ChaosScenario.steps sc ≠ [].
Proof.
  unfold from_dict. intros Hf. simpl in Hf.
  destruct (dict_get "steps" data) as [raw|] eqn:Hraw; [|discriminate Hf].
  unfold mbind, outcome_bind in Hf. simpl in Hf.
  destruct (py_iter raw) as [raws|] eqn:Hit; [|discriminate Hf].
  destruct (parse_steps raws) as [steps|] eqn:Hp; [|discriminate Hf].
  destruct steps as [|st sts].
  - destruct (dict_get "id" data); discriminate Hf.
  - bind_inv Hf. injection Hf as <-. simpl. by exists raw, raws.
Qed.

(** A step kept with its non-empty [expected_slo] has passed the check of
    the comparison operator found there. *)
Lemma parse_step_checks_comparison d es step :
  parse_step (PDict d) = Return step →
  dict_get "expected_slo" d = Some es →
  truthy es = true →
  ∃ c, py_getitem es "comparison" = Return c ∧ supported c.
Proof.
  unfold parse_step. simpl. intros Hp Hes Htrue. rewrite Hes in Hp. simpl in Hp.
  rewrite Htrue in Hp. bind_inv Hp.
  match goal with E : context [new_SLOExpectation] |- _ => rename E into Hslo end.
  bind_inv Hslo.
  match goal with E : new_SLOExpectation _ _ _ = Return _ |- _ =>
    apply new_SLOExpectation_inv in E; destruct E as [_ ?] end.
  eauto.
Qed.

(** C7 (as amended). Construction checks the number of steps and, for
    every non-empty [expected_slo], the comparison operator: a definition
    that is accepted has at least one step and only the operators [<=] and
    [>=].  It does not look at [action], [command] or [query]: a shell step
    without a command, a metric check without a query and an unknown action
    are refused by the executor, with [ValueError], when the step is
    executed. *)
Theorem from_dict_validation data sc :
  from_dict data = Return sc →
  ChaosScenario.steps sc ≠ []
  ∧ Forall (λ step, ∀ slo, ChaosStep.expected_slo step = Some slo →
                           supported (SLOExpectation.comparison slo))
      (ChaosScenario.steps sc)
  ∧ (∀ raws i d es,
       dict_get "steps" data = Some (PList raws) →
       raws !! i = Some (PDict d) →
       dict_get "expected_slo" d = Some es → truthy es = true →
       ∃ c, py_getitem es "comparison" = Return c ∧ supported c)
  ∧ ∀ step, step ∈ ChaosScenario.steps sc → ¬ well_formed step →
      ∀ endpoint dry_run w, ∃ msg,
        _execute_step endpoint step dry_run w = (w, Raise (ValueError msg)).
Proof.
  intros Hf. destruct (from_dict_steps _ _ Hf) as (raw & raws & Hraw & Hit & Hp & Hne).
  split; [done|]. split; [|split].
  - eapply parse_steps_Forall; [|exact Hp].
    intros r st Hr slo Hs. by eapply parse_step_supported.
  - intros raws' i d es Hsteps Hi Hes Htrue.
    rewrite Hsteps in Hraw. injection Hraw as <-. simpl in Hit.
    injection Hit as <-.
    destruct (parse_steps_lookup _ _ _ _ Hp Hi) as (step & _ & Hstep).
    by eapply parse_step_checks_comparison.
  - intros step _ Hwf endpoint dry_run w. unfold _execute_step, well_formed in *.
    destruct (py_eq_str (ChaosStep.action step) "shell") eqn:Hsh.
    + destruct (truthy (ChaosStep.command step)) eqn:Hc; simpl; [|eauto].
      exfalso. apply Hwf. split; [by left|]. split; [done|].
      intros Hm. destruct (ChaosStep.action step); simpl in *; try discriminate.
      apply String.eqb_eq in Hsh, Hm. congruence.
    + destruct (py_eq_str (ChaosStep.action step) "check-metric") eqn:Hm; [|eauto].
      destruct (truthy (ChaosStep.query step)) eqn:Hq; simpl; [|eauto].
      exfalso. apply Hwf. split; [by right|]. split; [done|]. done.
Qed.

Lemma parse_steps_app a b sa sb :
  parse_steps a = Return sa → parse_steps b = Return sb →
  parse_steps (a ++ b) = Return (sa ++ sb)%list.
Proof.
  revert sa. induction a as [|r a IH]; intros sa Ha Hb; simpl in *.
  - by injection Ha as <-.
  - bind_inv Ha. injection Ha as <-. unfold mbind, outcome_bind.
    by rewrite (IH _ eq_refl Hb).
Qed.

(** C10. A step whose [expected_slo] key is bound to a falsy value (null,
    an empty object, an empty string or list, zero, false) is built with no
    expectation, as if the key were missing: none of the checks on [name],
    [comparison] and [threshold] runs, and nothing is raised on its account.
    When the other steps and the fields of the scenario are in order,
    [from_dict] returns the scenario with that step in its place. *)
Theorem from_dict_falsy_slo data pre d post v :
  dict_get "steps" data = Some (PList (pre ++ PDict d :: post)) →
  dict_get "expected_slo" d = Some v →
  truthy v = false →
  (∀ id action, dict_get "id" d = Some id → dict_get "action" d = Some action →
     let step :=
       ChaosStep.mk id action
         (default PNone (dict_get "command" d))
         (default PNone (dict_get "query" d))
         (default PNone (dict_get "rollback" d))
         None
         (default PNone (dict_get "observation" d)) in
     parse_step (PDict d) = Return step
     ∧ ∀ steps_pre steps_post sid title description impact,
         parse_steps pre = Return steps_pre →
         parse_steps post = Return steps_post →
         dict_get "id" data = Some sid →
         dict_get "title" data = Some title →
         dict_get "description" data = Some description →
         dict_get "impact" data = Some impact →
         from_dict data
         = Return (ChaosScenario.mk sid title description impact
                     (default (PDict []) (dict_get "steady_state_check" data))
                     (steps_pre ++ step :: steps_post)%list))
  ∧ (∀ sc, from_dict data = Return sc →
       ∃ step, ChaosScenario.steps sc !! length pre = Some step
               ∧ ChaosStep.expected_slo step = None).
Proof.
  intros Hsteps Hv Hfalsy.
  assert (Hparse : ∀ step, parse_step (PDict d) = Return step →
                           ChaosStep.expected_slo step = None).
  { intros step. unfold parse_step. simpl. rewrite Hv. simpl. rewrite Hfalsy.
    intros Hp. bind_inv Hp. by injection Hp as <-. }
  split.
  - intros id action Hid Hact step.
    assert (Hstep : parse_step (PDict d) = Return step).
    { unfold parse_step. simpl. rewrite Hv. simpl. rewrite Hfalsy. simpl.
      by rewrite Hid, Hact. }
    split; [done|].
    intros steps_pre steps_post sid title description impact Hpre Hpost
      Hsid Htitle Hdesc Himpact.
    assert (Hall : parse_steps (pre ++ PDict d :: post)
                   = Return (steps_pre ++ step :: steps_post)%list).
    { apply parse_steps_app; [done|]. simpl. rewrite Hstep.
      unfold mbind, outcome_bind. by rewrite Hpost. }
    unfold from_dict. simpl. rewrite Hsteps. unfold mbind, outcome_bind. simpl.
    rewrite Hall, Hsid, Htitle, Hdesc, Himpact. by destruct steps_pre.
  - intros sc Hf. destruct (from_dict_steps _ _ Hf) as (raw & raws' & Hr & Hit & Hp & _).
    rewrite Hsteps in Hr. injection Hr as <-. simpl in Hit. injection Hit as <-.
    assert (Hi : (pre ++ PDict d :: post)%list !! length pre = Some (PDict d)).
    { by rewrite lookup_app_r, Nat.sub_diag by lia. }
    destruct (parse_steps_lookup _ _ _ _ Hp Hi) as (step & Hl & Hs). eauto.
Qed.

(** ** The recorder *)











(** ** The loop of [run] *)

Lemma with_steps_nil r : with_steps r [] = r.
Proof.
  destruct r as [sc n dr fp [] fin]. unfold with_steps, set_payload. simpl.
  by rewrite app_nil_r.
Qed.

Lemma with_steps_app r a b : with_steps (with_steps r a) b = with_steps r (a ++ b).
Proof. unfold with_steps, set_payload. simpl. by rewrite app_assoc. Qed.

Lemma dict_get_set_ne k k' v d :
  k ≠ k' → dict_get k (dict_set k' v d) = dict_get k d.
Proof.
  intros Hne. induction d as [|[k0 v0] d IH]; simpl.
  - by destruct (String.eqb_spec k k').
  - destruct (String.eqb_spec k' k0) as [->|Hk]; simpl.
    + by destruct (String.eqb_spec k k0).
    + destruct (String.eqb_spec k k0); [done|apply IH].
Qed.

(** The report of the evaluator has no [status] key, so merging it into the
    result keeps the status of the executor. *)
Lemma merge_keeps_status step result report :
  snd (_assert_slo step result) = Return report →
  dict_get "status" (dict_merge result report) = dict_get "status" result.
Proof.
  unfold _assert_slo. destruct (ChaosStep.expected_slo step) as [slo|]; simpl.
  - destruct (is_none (default PNone (dict_get "metric_value" result))); simpl.
    + intros [= <-]. unfold dict_merge. simpl. by rewrite !dict_get_set_ne.
    + destruct (if py_eq_str _ _ then _ else _) as [[]|]; simpl; try discriminate.
      intros [= <-]. unfold dict_merge. simpl. by rewrite !dict_get_set_ne.
  - by intros [= <-].
Qed.

Lemma run_step_ok endpoint dry_run step r w w' r' :
  run_step endpoint dry_run step r w = (w', r', None) →
  ∃ entry, r' = with_steps r [entry] ∧ recorded step entry.
Proof.
  unfold run_step.
  destruct (_execute_step endpoint step dry_run w) as [w1 [result|ex]]; [|done].
  destruct (snd (_assert_slo step result)) as [report|ex] eqn:Hslo; [|done].
  simpl. destruct (dict_get "status" result) as [status|] eqn:Hst; [|done].
  intros [= <- <-]. eexists. split; [reflexivity|].
  repeat split; simpl. by rewrite (merge_keeps_status _ _ _ Hslo).
Qed.

Lemma run_step_stop endpoint dry_run step r w w' r' ex :
  run_step endpoint dry_run step r w = (w', r', Some ex) → r' = r.
Proof.
  unfold run_step.
  destruct (_execute_step endpoint step dry_run w) as [w1 [result|ex1]]; [|congruence].
  destruct (snd (_assert_slo step result)) as [report|ex1]; [|congruence].
  simpl. destruct (dict_get "status" result); congruence.
Qed.



Lemma run_steps_ok endpoint dry_run steps r w w' r' :
  run_steps endpoint dry_run steps r w = (w', r', None) →
  ∃ entries, r' = with_steps r entries ∧ Forall2 recorded steps entries.
Proof.
  revert r w. induction steps as [|step steps IH]; intros r w; simpl.
  - intros [= <- <-]. exists []. by rewrite with_steps_nil.
  - destruct (run_step endpoint dry_run step r w) as [[w1 r1] [ex|]] eqn:Hstep; [done|].
    intros Hrest. destruct (run_step_ok _ _ _ _ _ _ _ Hstep) as (entry & -> & Hrec).
    destruct (IH _ _ Hrest) as (entries & -> & Hall).
    exists (entry :: entries). rewrite with_steps_app. by split; [|constructor].
Qed.

Lemma recorded_ids steps entries :
  Forall2 recorded steps entries →
  map StepEntry.step_id entries = map ChaosStep.id steps
  ∧ map StepEntry.action entries = map ChaosStep.action steps
  ∧ length entries = length steps.
Proof.
  induction 1 as [|step entry steps entries (Hid & Hact & _) _ (IH1 & IH2 & IH3)];
    simpl; [done|]. by rewrite Hid, Hact, IH1, IH2, IH3.
Qed.

(** The loop never touches the path of the recorder nor its seal. *)
Lemma run_steps_keeps endpoint dry_run steps r w w' r' stop :
  run_steps endpoint dry_run steps r w = (w', r', stop) →
  Recorder.file_path r' = Recorder.file_path r
  ∧ Recorder._finalized r' = Recorder._finalized r.
Proof.
  revert r w. induction steps as [|step steps IH]; intros r w; simpl.
  - by intros [= <- <- <-].
  - destruct (run_step endpoint dry_run step r w) as [[w1 r1] [ex|]] eqn:Hstep.
    + intros [= <- <- <-]. by rewrite (run_step_stop _ _ _ _ _ _ _ _ Hstep).
    + destruct (run_step_ok _ _ _ _ _ _ _ Hstep) as (entry & -> & _).
      intros Hrest. by destruct (IH _ _ Hrest).
Qed.

(** [run] on a known scenario, by the way its loop ends. *)
Lemma run_known scenarios endpoint scenario_id dry_run note now w d scenario
    w1 r1 stop :
  scenarios !! scenario_id = Some scenario →
  let r0 := new_ChaosRunRecorder scenario note dry_run now in
  let path := Recorder.file_path r0 in
  run_steps endpoint dry_run (ChaosScenario.steps scenario) r0 w = (w1, r1, stop) →
  run scenarios endpoint scenario_id dry_run note now w d
  = match stop with
    | None =>
        match open_error path with
        | None => (w1, store path (Recorder.payload r1) d, Return path)
        | Some e => (w1, d, Raise e)
        end
    | Some ex =>
        if is_Exception ex then
          match open_error path with
          | None =>
              (w1, store path (with_failed (Recorder.payload r1) (str_exn ex)) d,
               Raise ex)
          | Some e => (w1, d, Raise e)
          end
        else (w1, d, Raise ex)
    end.
Proof.
  intros Hsc r0 path Hloop. unfold run, show. rewrite Hsc. fold r0. rewrite Hloop.
  destruct (run_steps_keeps _ _ _ _ _ _ _ _ Hloop) as [Hfp Hfin].
  change (Recorder._finalized r0) with false in Hfin. fold path in Hfp.
  destruct stop as [ex|].
  - destruct (is_Exception ex); [|done].
    unfold abort, abort_raises, finalize_raises, finalize, store. simpl.
    rewrite Hfin, Hfp. by destruct (open_error path).
  - unfold finalize_raises, finalize, store. rewrite Hfin, Hfp.
    destruct (open_error path) as [e|] eqn:Ho; [|done].
    destruct (is_Exception e); [|done].
    unfold abort, abort_raises, finalize_raises, finalize. simpl.
    by rewrite Hfin, Hfp, Ho.
Qed.

(** C2. When [run] returns, the file at the returned path holds the record
    of the run: one entry per step of the scenario, in the order of the
    scenario, carrying the id and the action of its step, and no [failed]
    key.  The only write of the run is that of [finalize]. *)
Theorem run_records_every_step scenarios endpoint scenario_id dry_run note now
    w d w' d' path :
  run scenarios endpoint scenario_id dry_run note now w d = (w', d', Return path) →
  ∃ scenario payload,
    scenarios !! scenario_id = Some scenario
    ∧ files d' !! path = Some payload
    ∧ written d' = path :: written d
    ∧ length (Payload.steps payload) = length (ChaosScenario.steps scenario)
    ∧ map StepEntry.step_id (Payload.steps payload)
      = map ChaosStep.id (ChaosScenario.steps scenario)
    ∧ map StepEntry.action (Payload.steps payload)
      = map ChaosStep.action (ChaosScenario.steps scenario)
    ∧ Payload.failed payload = None.
Proof.
  destruct (scenarios !! scenario_id) as [scenario|] eqn:Hsc;
    [|unfold run, show; by rewrite Hsc].
  set (r0 := new_ChaosRunRecorder scenario note dry_run now).
  destruct (run_steps endpoint dry_run (ChaosScenario.steps scenario) r0 w)
    as [[w1 r1] stop] eqn:Hloop.
  rewrite (run_known _ _ _ _ _ _ _ _ _ _ _ _ Hsc Hloop). fold r0.
  destruct stop as [ex|].
  { destruct (is_Exception ex); [|done].
    by destruct (open_error (Recorder.file_path r0)). }
  destruct (open_error (Recorder.file_path r0)); [done|].
  destruct (run_steps_ok _ _ _ _ _ _ _ Hloop) as (entries & -> & Hall).
  destruct (recorded_ids _ _ Hall) as (Hid & Hact & Hlen).
  intros [= <- <- <-]. exists scenario. eexists. split; [done|]. split.
  { simpl. apply lookup_insert_eq. }
  by repeat split.
Qed.


(** ** Replay *)

Lemma run_steps_entries endpoint dry_run steps r w w' r' stop :
  run_steps endpoint dry_run steps r w = (w', r', stop) →
  ∃ entries, r' = with_steps r entries ∧ Forall status_in_detail entries.
Proof.
  revert r w. induction steps as [|step steps IH]; intros r w; simpl.
  - intros [= <- <- <-]. exists []. by rewrite with_steps_nil.
  - destruct (run_step endpoint dry_run step r w) as [[w1 r1] [ex|]] eqn:Hstep.
    + intros [= <- <- <-]. rewrite (run_step_stop _ _ _ _ _ _ _ _ Hstep).
      exists []. by rewrite with_steps_nil.
    + destruct (run_step_ok _ _ _ _ _ _ _ Hstep) as (entry & -> & _ & _ & Hst).
      intros Hrest. destruct (IH _ _ Hrest) as (entries & -> & Hall).
      exists (entry :: entries). rewrite with_steps_app. by split; [|constructor].
Qed.




(** ** Storage keys *)

#[local] Ltac Zify.zify_post_hook ::= Z.to_euclidean_division_equations.

Lemma digit_inj a b : digit a = digit b → (a mod 10 = b mod 10)%N.
Proof.
  unfold digit. intros Hd. apply (f_equal N_of_ascii) in Hd.
  rewrite !N_ascii_embedding in Hd by lia. lia.
Qed.

Lemma pad2_inj a b : (a < 100)%N → (b < 100)%N → pad2 a = pad2 b → a = b.
Proof. unfold pad2. intros Ha Hb [= H1%digit_inj H2%digit_inj]. lia. Qed.

Lemma pad2_append_inj x y s t :
  pad2 x +:+ s = pad2 y +:+ t → pad2 x = pad2 y ∧ s = t.
Proof.
  unfold pad2. cbv [String.append]. intros [= H1 H2 H3]. by rewrite H1, H2, H3.
Qed.

Lemma pad4_split a : pad4 a = pad2 (a / 100) +:+ pad2 (a mod 100).
Proof.
  unfold pad4, pad2, digit. cbv [String.append].
  replace ((a / 1000) mod 10)%N with ((a / 100 / 10) mod 10)%N by lia.
  replace ((a / 10) mod 10)%N with ((a mod 100 / 10) mod 10)%N by lia.
  replace (a mod 10)%N with ((a mod 100) mod 10)%N by lia.
  reflexivity.
Qed.

Lemma pad4_inj a b : (a < 10000)%N → (b < 10000)%N → pad4 a = pad4 b → a = b.
Proof.
  intros Ha Hb. rewrite !pad4_split. intros [Hq Hr]%pad2_append_inj.
  apply pad2_inj in Hq, Hr; lia.
Qed.

Lemma append_cancel_l p a b : p +:+ a = p +:+ b → a = b.
Proof.
  induction p as [|c p IH]; cbv [String.append]; [done|].
  intros [= Hp]. by apply IH.
Qed.

Lemma strftime_same_second a b rest :
  valid_datetime a → valid_datetime b →
  strftime a +:+ rest = strftime b +:+ rest → same_second a b.
Proof.
  intros (Hy & Hm & Hd & Hh & Hmi & Hs & _) (Hy' & Hm' & Hd' & Hh' & Hmi' & Hs' & _).
  unfold strftime, pad4, pad2. cbv [String.append].
  intros [= Y1 Y2 Y3 Y4 M1 M2 D1 D2 h1 h2 m1 m2 s1 s2].
  unfold same_second. repeat split.
  - apply pad4_inj; [lia|lia|]. unfold pad4, pad2. congruence.
  - apply pad2_inj; [lia|lia|]. unfold pad2. congruence.
  - apply pad2_inj; [lia|lia|]. unfold pad2. congruence.
  - apply pad2_inj; [lia|lia|]. unfold pad2. congruence.
  - apply pad2_inj; [lia|lia|]. unfold pad2. congruence.
  - apply pad2_inj; [lia|lia|]. unfold pad2. congruence.
Qed.

Lemma append_assoc_str a b c : (a +:+ b) +:+ c = a +:+ b +:+ c.
Proof. induction a as [|x a IH]; cbv [String.append]; [done|]. f_equal. apply IH. Qed.

Lemma append_cons c a b : String c a +:+ b = String c (a +:+ b).
Proof. reflexivity. Qed.

Lemma split_slash_cons s : ∃ part parts, split_slash s = part :: parts.
Proof.
  induction s as [|c s (part & parts & IH)]; simpl; [by eauto|].
  destruct (Ascii.eqb c "/"); [by eauto|]. rewrite IH. by eauto.
Qed.

(** A prefix without [/] stays in front of the first part. *)
Lemma split_slash_prefix p s part parts :
  Forall (λ c, c ≠ "/"%char) (list_ascii_of_string p) →
  split_slash s = part :: parts →
  split_slash (p +:+ s) = (p +:+ part) :: parts.
Proof.
  intros Hp Hs. induction p as [|c p IH]; [done|].
  simpl in Hp. inversion Hp as [|? ? Hc Hrest]; subst.
  rewrite append_cons. simpl. destruct (Ascii.eqb_spec c "/") as [|_]; [done|].
  by rewrite (IH Hrest).
Qed.

Lemma join_slash_prefix p part parts :
  join_slash ((p +:+ part) :: parts) = p +:+ join_slash (part :: parts).
Proof. simpl. destruct parts; [done|]. by rewrite append_assoc_str. Qed.

(** Joining a name to a directory keeps a prefix of the name that has no
    [/] and at least two characters; what follows it depends on the rest of
    the name only. *)
Lemma path_join_prefix dir rest :
  ∃ tail, ∀ p,
    Forall (λ c, c ≠ "/"%char) (list_ascii_of_string p) →
    (2 ≤ String.length p)%nat →
    path_join dir (p +:+ rest) = dir +:+ "/" +:+ p +:+ tail.
Proof.
  destruct (split_slash_cons rest) as (part & parts & Hs).
  exists (join_slash
            (part :: List.filter
                       (λ q, negb (String.eqb q "" || String.eqb q ".")) parts)).
  intros p Hp Hlen. unfold path_join, path_parts.
  rewrite (split_slash_prefix p rest part parts Hp Hs). cbn [List.filter].
  assert (Hkeep : negb (String.eqb (p +:+ part) "" || String.eqb (p +:+ part) ".")
                  = true).
  { destruct p as [|c1 [|c2 p]]; simpl in Hlen; try lia.
    rewrite !append_cons. simpl. by destruct (Ascii.eqb c1 "."). }
  rewrite Hkeep. by rewrite join_slash_prefix.
Qed.

Lemma digit_no_slash n : digit n ≠ "/"%char.
Proof.
  unfold digit. intros Hd. apply (f_equal N_of_ascii) in Hd.
  rewrite N_ascii_embedding in Hd by lia. simpl in Hd. lia.
Qed.

Lemma strftime_no_slash now :
  Forall (λ c, c ≠ "/"%char) (list_ascii_of_string (strftime now))
  ∧ String.length (strftime now) = 16%nat.
Proof.
  unfold strftime, pad4, pad2. cbv [String.append]. simpl. split; [|done].
  repeat constructor; try apply digit_no_slash; discriminate.
Qed.

(** C9 (as amended). The storage key is the start time formatted to the
    second, the scenario id and the note.  Two recorders for the same
    scenario and note get the same path exactly when their clock readings
    fall within the same second; readings in different seconds give
    different paths. *)
Theorem file_path_collision scenario note dry_run1 dry_run2 now1 now2 :
  valid_datetime now1 → valid_datetime now2 →
  (Recorder.file_path (new_ChaosRunRecorder scenario note dry_run1 now1)
   = Recorder.file_path (new_ChaosRunRecorder scenario note dry_run2 now2)
   ↔ same_second now1 now2).
Proof.
  intros Hv1 Hv2. unfold new_ChaosRunRecorder. simpl.
  match goal with |- path_join _ (_ +:+ ?rest) = _ ↔ _ =>
    destruct (path_join_prefix RUN_DIR rest) as (tail & Htail) end.
  destruct (strftime_no_slash now1) as [Hs1 Hl1].
  destruct (strftime_no_slash now2) as [Hs2 Hl2].
  rewrite (Htail (strftime now1)), (Htail (strftime now2)) by (done || lia).
  split.
  - intros Hp. do 2 apply append_cancel_l in Hp.
    by apply strftime_same_second in Hp.
  - intros (Hy & Hm & Hd & Hh & Hmi & Hs). unfold strftime.
    by rewrite Hy, Hm, Hd, Hh, Hmi, Hs.
Qed.

End Properties.

(** * The theorems at concrete inputs *)

Section Examples.
Import Demo.

Lemma assert_slo_threshold_at_80 :
  (slo_returns (H := host80) "met" step2 result80 ↔ SFleb f80 f100 = true)
  ∧ SFleb f80 f100 = true.
Proof.
  split; [|reflexivity].
  apply (assert_slo_threshold (H := host80) step2
           (SLOExpectation.mk (PStr "latency") (PStr "<=") f100) result80 f80);
    reflexivity.
Defined.

Lemma run_records_every_step_demo :
  ∃ scenario payload,
    catalog !! "demo" = Some scenario
    ∧ files dry_disk !! dry_path = Some payload
    ∧ written dry_disk = [dry_path]
    ∧ length (Payload.steps payload) = length (ChaosScenario.steps scenario)
    ∧ map StepEntry.step_id (Payload.steps payload)
      = map ChaosStep.id (ChaosScenario.steps scenario)
    ∧ map StepEntry.action (Payload.steps payload)
      = map ChaosStep.action (ChaosScenario.steps scenario)
    ∧ Payload.failed payload = None.
Proof.
  apply (run_records_every_step (H := host80) catalog None "demo" true None t0
           [] empty_disk [] dry_disk dry_path).
  vm_compute. reflexivity.
Defined.



(** An interrupt during the second step is not caught by [run]: [abort] is
    not called and no record is written. *)
Lemma run_interrupted_leaves_no_record :
  run (H := host_interrupted) catalog endpoint "demo" false None t0 []
    empty_disk
  = ([PStr "echo ok"], empty_disk, Raise KeyboardInterrupt).
Proof. vm_compute. reflexivity. Qed.

Lemma assert_slo_pending_unanswered :
  slo_returns (H := host80) "pending" step2 result_unanswered
  ∧ ¬ slo_returns (H := host80) "met" step2 result_unanswered
  ∧ ¬ slo_violated (H := host80) step2 result_unanswered.
Proof.
  destruct (assert_slo_pending (H := host80) step2
              (SLOExpectation.mk (PStr "latency") (PStr "<=") f100)
              result_unanswered) as (Hp & Hm & Hv & _); [reflexivity..|].
  by repeat split.
Defined.



Lemma from_dict_validation_demo :
  ChaosScenario.steps broken_scenario ≠ []
  ∧ Forall (λ step, ∀ slo, ChaosStep.expected_slo step = Some slo →
                           supported (SLOExpectation.comparison slo))
      (ChaosScenario.steps broken_scenario)
  ∧ ∀ step, step ∈ ChaosScenario.steps broken_scenario →
      ¬ well_formed step →
      ∀ endpoint dry_run w, ∃ msg,
        _execute_step (H := host80) endpoint step dry_run w
        = (w, Raise (ValueError msg)).
Proof.
  destruct (from_dict_validation (H := host80) raw_scenario broken_scenario)
    as (Hne & Hall & _ & Hexec); [reflexivity|].
  by repeat split.
Defined.

(** The claim of C7 fails: construction accepts a scenario whose steps break
    the three invariants on [action], [command] and [query]; each of them
    is refused only when it is executed. *)
Lemma from_dict_accepts_ill_formed_steps :
  from_dict (H := host80) raw_scenario = Return broken_scenario
  ∧ ¬ Forall well_formed (ChaosScenario.steps broken_scenario)
  ∧ Forall (λ step, ¬ well_formed step)
      (take 3 (ChaosScenario.steps broken_scenario))
  ∧ map (λ step, snd (_execute_step (H := host80) endpoint step false []))
      (take 3 (ChaosScenario.steps broken_scenario))
    = [Raise (ValueError "步骤 b1 缺少 command");
       Raise (ValueError "步骤 b2 缺少 query");
       Raise (ValueError "未知的步骤类型: http")].
Proof.
  split; [reflexivity|].
  assert (H3 : Forall (λ step, ¬ well_formed step)
                 (take 3 (ChaosScenario.steps broken_scenario))).
  { repeat constructor.
    - intros (_ & Hc & _). specialize (Hc eq_refl). discriminate Hc.
    - intros (_ & _ & Hq). specialize (Hq eq_refl). discriminate Hq.
    - intros ([Ha|Ha] & _); discriminate Ha. }
  split; [|split; [exact H3|reflexivity]].
  intros Hall. inversion Hall as [|? ? Hwf _]. subst.
  by inversion H3 as [|? ? Hn _].
Qed.

Lemma from_dict_falsy_slo_demo :
  from_dict (H := host80) raw_scenario = Return broken_scenario.
Proof.
  destruct (from_dict_falsy_slo (H := host80) raw_scenario
              [PDict [("id", PStr "b1"); ("action", PStr "shell")];
               PDict [("id", PStr "b2"); ("action", PStr "check-metric")];
               PDict [("id", PStr "b3"); ("action", PStr "http")]]
              [("id", PStr "b4"); ("action", PStr "shell");
               ("command", PStr "echo ok"); ("expected_slo", PDict [])]
              [] (PDict [])) as [Hstep _]; [reflexivity..|].
  destruct (Hstep (PStr "b4") (PStr "shell") eq_refl eq_refl) as [_ Hsc].
  apply (Hsc (take 3 (ChaosScenario.steps broken_scenario)) []
           (PStr "broken") (PStr "Broken") (PStr "") (PStr "")); reflexivity.
Defined.



Lemma file_path_collision_demo :
  Recorder.file_path (new_ChaosRunRecorder (H := host80) scenario None false t0)
  = Recorder.file_path (new_ChaosRunRecorder (H := host80) scenario None false t0')
  ↔ same_second t0 t0'.
Proof.
  apply (file_path_collision (H := host80) scenario None false false t0 t0');
    unfold valid_datetime; simpl; lia.
Defined.

(** The claim of C9 fails: two runs of the same scenario with the same note,
    started half a second apart, get the same path, and the record of the
    second run replaces that of the first. *)
Lemma runs_in_same_second_collide :
  t0 ≠ t0'
  ∧ ∃ w1 d1 w2 d2 path,
      run (H := host80) catalog endpoint "demo" false None t0 [] empty_disk
      = (w1, d1, Return path)
      ∧ run (H := host80) catalog endpoint "demo" true None t0' w1 d1
        = (w2, d2, Return path)
      ∧ written d2 = [path; path]
      ∧ files d1 !! path ≠ files d2 !! path.
Proof.
  split; [discriminate|].
  do 5 eexists. split; [vm_compute; reflexivity|].
  split; [vm_compute; reflexivity|]. split; [reflexivity|].
  vm_compute. discriminate.
Qed.

End Examples.

(** * Further properties of the runner *)

Section Further.
Context `{H : Host}.

Ltac bind_inv H :=
  unfold mbind, outcome_bind, mret, outcome_ret in H;
  repeat (simpl in H;
    match type of H with
    | match ?m with Return _ => _ | Raise _ => _ end = Return _ =>
        let E := fresh "E" in destruct m eqn:E; [|discriminate H]
    | (if ?b then _ else _) = Return _ =>
        lazymatch type of b with
        | bool => let E := fresh "E" in destruct b eqn:E
        end
    | Raise _ = Return _ => discriminate H
    end).

(** ** The metric client *)

(** X1. Without an endpoint (missing or empty) [fetch_value] returns
    [None] and sends no request: the world is left as it is.  Whatever the
    endpoint answers, a call that returns yields [None] or a float, never
    another kind of value. *)
Theorem fetch_value_optional_float endpoint query w :
  (endpoint = None ∨ endpoint = Some "" →
   fetch_value endpoint query w = (w, Return PNone))
  ∧ (∀ w' v, fetch_value endpoint query w = (w', Return v) →
             v = PNone ∨ ∃ f, v = PFloat f).
Proof.
  unfold fetch_value. split.
  - by intros [->| ->].
  - intros w' v Hf.
    destruct endpoint as [e|]; [|injection Hf as <- <-; by left].
    destruct (String.eqb e ""); [injection Hf as <- <-; by left|].
    destruct (urlopen_json _ w) as [w1 [payload|ex]]; [|discriminate Hf].
    injection Hf as <- Hv. bind_inv Hv; injection Hv as <-; eauto.
Qed.

(** X2. A metric value of zero is a value: whenever the client returns a
    float, zero included, the metric check has status [success], stores the
    value, and an expectation on the step is evaluated rather than left
    [pending]. *)
Theorem metric_value_zero_counts endpoint step dry_run w w' f :
  py_eq_str (ChaosStep.action step) "shell" = false →
  py_eq_str (ChaosStep.action step) "check-metric" = true →
  truthy (ChaosStep.query step) = true →
  fetch_value endpoint (ChaosStep.query step) w = (w', Return (PFloat f)) →
  ∃ result,
    _execute_step endpoint step dry_run w = (w', Return result)
    ∧ dict_get "status" result = Some (PStr "success")
    ∧ dict_get "metric_value" result = Some (PFloat f)
    ∧ ¬ slo_returns "pending" step result.
Proof.
  intros Hsh Hm Hq Hf. unfold _execute_step. rewrite Hsh, Hm, Hq, Hf. simpl.
  eexists. split; [reflexivity|]. split; [reflexivity|]. split; [reflexivity|].
  intros (report & Hr & Hst). unfold _assert_slo in Hr.
  destruct (ChaosStep.expected_slo step) as [slo|]; simpl in Hr.
  - destruct (if py_eq_str _ _ then _ else _) as [[]|]; simpl in Hr;
      injection Hr as <- Hr'; try discriminate Hr'; discriminate Hst.
  - injection Hr as <- _. discriminate Hst.
Qed.

(** ** The step executor *)

(** X3. The executor returns only for a step that satisfies the invariants
    of the data model, and then the status of its result is [success] or
    [skipped] and the observation of the step is in the result. *)
Theorem execute_returns_well_formed endpoint step dry_run w w' result :
  _execute_step endpoint step dry_run w = (w', Return result) →
  well_formed step
  ∧ (dict_get "status" result = Some (PStr "success")
     ∨ dict_get "status" result = Some (PStr "skipped"))
  ∧ dict_get "observation" result = Some (ChaosStep.observation step).
Proof.
  unfold _execute_step, well_formed.
  destruct (py_eq_str (ChaosStep.action step) "shell") eqn:Hsh.
  - destruct (truthy (ChaosStep.command step)) eqn:Hc; simpl; [|discriminate].
    assert (Hm : py_eq_str (ChaosStep.action step) "check-metric" = false).
    { destruct (ChaosStep.action step); simpl in *; try done.
      apply String.eqb_eq in Hsh as ->. done. }
    rewrite Hm. destruct dry_run.
    + intros [= <- <-]. split; [intuition congruence|]. split; [by right|done].
    + destruct (subprocess_run _ w) as [w1 [[out err]|ex]]; [|discriminate].
      intros [= <- <-]. split; [intuition congruence|]. split; [by left|done].
  - destruct (py_eq_str (ChaosStep.action step) "check-metric") eqn:Hm;
      [|discriminate].
    destruct (truthy (ChaosStep.query step)) eqn:Hq; simpl; [|discriminate].
    destruct (fetch_value _ _ w) as [w1 [value|ex]]; [|discriminate].
    intros [= <- <-]. split; [intuition congruence|].
    destruct (is_none value); split; auto.
Qed.

(** X4. The dry-run flag only guards shell steps: on a scenario without
    shell steps the loop of [run] does the same in a dry run as in a real
    run (same requests to the metric endpoint, same entries, same
    exception), so an SLO violation aborts a dry run too. *)
Theorem dry_run_only_guards_shell endpoint steps r w :
  Forall (λ step, py_eq_str (ChaosStep.action step) "shell" = false) steps →
  run_steps endpoint true steps r w = run_steps endpoint false steps r w.
Proof.
  intros Hall. revert r w. induction Hall as [|step steps Hsh _ IH]; intros r w; [done|].
  simpl. assert (Hstep : run_step endpoint true step r w
                         = run_step endpoint false step r w).
  { unfold run_step, _execute_step. by rewrite Hsh. }
  rewrite Hstep. destruct (run_step endpoint false step r w) as [[w1 r1] [ex|]];
    [done|apply IH].
Qed.

(** ** The loop of [run] and the stored record *)

(** The report of the evaluator only adds keys, so merging it into the
    result of the executor is appending it. *)
Lemma merge_is_append endpoint step dry_run w w' result report :
  _execute_step endpoint step dry_run w = (w', Return result) →
  snd (_assert_slo step result) = Return report →
  dict_merge result report = (result ++ report)%list.
Proof.
  unfold _execute_step, _assert_slo.
  destruct (py_eq_str (ChaosStep.action step) "shell").
  - destruct (truthy (ChaosStep.command step)); simpl; [|discriminate].
    destruct dry_run.
    + intros [= <- <-]. destruct (ChaosStep.expected_slo step); simpl;
        by intros [= <-].
    + destruct (subprocess_run _ w) as [w1 [[out err]|ex]]; [|discriminate].
      intros [= <- <-]. destruct (ChaosStep.expected_slo step); simpl;
        by intros [= <-].
  - destruct (py_eq_str (ChaosStep.action step) "check-metric"); [|discriminate].
    destruct (truthy (ChaosStep.query step)); simpl; [|discriminate].
    destruct (fetch_value _ _ w) as [w1 [value|ex]]; [|discriminate].
    intros [= <- <-]. destruct (ChaosStep.expected_slo step) as [slo|];
      destruct (is_none value) eqn:Hn; simpl; rewrite ?Hn; simpl;
      try (by intros [= <-]).
    destruct (if py_eq_str _ _ then _ else _) as [[]|]; simpl;
      try discriminate; by intros [= <-].
Qed.

Lemma run_step_entry endpoint dry_run step r w w' r' :
  run_step endpoint dry_run step r w = (w', r', None) →
  ∃ entry, r' = with_steps r [entry] ∧ entry_of endpoint dry_run step w w' entry.
Proof.
  unfold run_step.
  destruct (_execute_step endpoint step dry_run w) as [w1 [result|ex]] eqn:Hex;
    [|done].
  destruct (snd (_assert_slo step result)) as [report|ex] eqn:Hslo; [|done].
  simpl. destruct (dict_get "status" result) as [status|] eqn:Hst; [|done].
  intros [= <- <-]. eexists. split; [reflexivity|].
  exists result, report. repeat split; try done. simpl.
  by eapply merge_is_append.
Qed.

(** What holds of the entry of each step holds of every entry the loop adds. *)
Lemma run_steps_Forall (P : StepEntry.t → Prop) endpoint dry_run steps r w w' r' stop :
  (∀ step w1 w2 entry, entry_of endpoint dry_run step w1 w2 entry → P entry) →
  run_steps endpoint dry_run steps r w = (w', r', stop) →
  ∃ entries, r' = with_steps r entries ∧ Forall P entries.
Proof.
  intros HP. revert r w. induction steps as [|step steps IH]; intros r w; simpl.
  - intros [= <- <- <-]. exists []. by rewrite with_steps_nil.
  - destruct (run_step endpoint dry_run step r w) as [[w1 r1] [ex|]] eqn:Hstep.
    + intros [= <- <- <-]. rewrite (run_step_stop _ _ _ _ _ _ _ _ Hstep).
      exists []. by rewrite with_steps_nil.
    + destruct (run_step_entry _ _ _ _ _ _ _ Hstep) as (entry & -> & Hentry).
      intros Hrest. destruct (IH _ _ Hrest) as (entries & -> & Hall).
      exists (entry :: entries). rewrite with_steps_app. split; [done|].
      constructor; eauto.
Qed.

(** The record [run] writes for a known scenario: the entries of the loop,
    with the failure text when the loop raised. *)
Lemma run_record scenarios endpoint scenario_id dry_run note now w d w' d' res scenario :
  scenarios !! scenario_id = Some scenario →
  run scenarios endpoint scenario_id dry_run note now w d = (w', d', res) →
  let r0 := new_ChaosRunRecorder scenario note dry_run now in
  written d' = Recorder.file_path r0 :: written d →
  ∃ r1 stop payload,
    run_steps endpoint dry_run (ChaosScenario.steps scenario) r0 w = (w', r1, stop)
    ∧ files d' = <[Recorder.file_path r0 := payload]> (files d)
    ∧ Payload.steps payload = Payload.steps (Recorder.payload r1)
    ∧ Payload.failed payload = str_exn <$> stop
    ∧ res = match stop with
            | None => Return (Recorder.file_path r0)
            | Some ex => Raise ex
            end.
Proof.
  intros Hsc Hrun r0 Hw.
  destruct (run_steps endpoint dry_run (ChaosScenario.steps scenario) r0 w)
    as [[w1 r1] stop] eqn:Hloop.
  rewrite (run_known _ _ _ _ _ _ _ _ _ _ _ _ Hsc Hloop) in Hrun. fold r0 in Hrun.
  destruct (run_steps_entries _ _ _ _ _ _ _ _ Hloop) as (entries & Hr1 & _).
  assert (Hno : written d ≠ Recorder.file_path r0 :: written d).
  { intros Heq. apply (f_equal length) in Heq. simpl in Heq. lia. }
  exists r1, stop.
  destruct stop as [ex|]; [destruct (is_Exception ex)|];
    try destruct (open_error (Recorder.file_path r0));
    injection Hrun as <- <- <-; try done;
    eexists; (split; [reflexivity|]); by rewrite Hr1.
Qed.

(** X5. The detail stored for a step is the result of the executor followed
    by the report of the evaluator: every pair of the result is kept as it
    is, and the status of the entry is the status of the result.  This
    holds for each entry of the record [run] has written, in the order of
    the steps; when the run was aborted the entries are those of the steps
    before the failing one.  (A run that could not open its file, or that
    was interrupted, writes nothing: a file found at the path is then an
    older one.) *)
Theorem stored_detail_is_result_then_report scenarios endpoint scenario_id dry_run
    note now w d w' d' res scenario payload :
  scenarios !! scenario_id = Some scenario →
  run scenarios endpoint scenario_id dry_run note now w d = (w', d', res) →
  written d'
  = Recorder.file_path (new_ChaosRunRecorder scenario note dry_run now) :: written d →
  files d' !! Recorder.file_path (new_ChaosRunRecorder scenario note dry_run now)
  = Some payload →
  ∃ executed, executed `prefix_of` ChaosScenario.steps scenario
    ∧ Forall2 (λ step entry, ∃ w1 w2, entry_of endpoint dry_run step w1 w2 entry)
        executed (Payload.steps payload).
Proof.
  intros Hsc Hrun Hw Hfile.
  destruct (run_record _ _ _ _ _ _ _ _ _ _ _ _ Hsc Hrun Hw)
    as (r1 & stop & p & Hloop & Hfiles & Hsteps & _).
  rewrite Hfiles, lookup_insert_eq in Hfile. injection Hfile as <-.
  rewrite Hsteps. clear -Hloop.
  assert (Hgen : ∀ steps r w0,
    run_steps endpoint dry_run steps r w0 = (w', r1, stop) →
    ∃ executed entries, executed `prefix_of` steps ∧ r1 = with_steps r entries
      ∧ Forall2 (λ step entry, ∃ w1 w2, entry_of endpoint dry_run step w1 w2 entry)
          executed entries).
  { induction steps as [|step steps IH]; intros r w0; simpl.
    - intros [= <- <- <-]. exists [], []. by rewrite with_steps_nil.
    - destruct (run_step endpoint dry_run step r w0) as [[w1 r2] [ex|]] eqn:Hstep.
      + intros [= <- <- <-]. rewrite (run_step_stop _ _ _ _ _ _ _ _ Hstep).
        exists [], []. rewrite with_steps_nil.
        split; [apply prefix_nil|]. by split.
      + destruct (run_step_entry _ _ _ _ _ _ _ Hstep) as (entry & -> & Hentry).
        intros Hrest. destruct (IH _ _ Hrest) as (pre & entries & Hpre & -> & Hall).
        exists (step :: pre), (entry :: entries). rewrite with_steps_app.
        split; [by apply prefix_cons|]. split; [done|]. constructor; eauto. }
  destruct (Hgen _ _ _ Hloop) as (pre & entries & Hpre & -> & Hall).
  exists pre. split; [done|]. by simpl.
Qed.

(** The SLO verdict in the entry of a step. *)
Lemma entry_of_verdict endpoint dry_run step w w' entry :
  entry_of endpoint dry_run step w w' entry → slo_verdict_stored entry.
Proof.
  intros (result & report & Hex & Hslo & _ & _ & _ & Hd).
  unfold slo_verdict_stored. rewrite Hd. clear Hd. revert Hex Hslo.
  unfold _execute_step, _assert_slo.
  destruct (py_eq_str (ChaosStep.action step) "shell").
  - destruct (truthy (ChaosStep.command step)); simpl; [|discriminate].
    destruct dry_run.
    + intros [= <- <-]. destruct (ChaosStep.expected_slo step); simpl;
        intros [= <-]; simpl; auto.
    + destruct (subprocess_run _ w) as [w1 [[out err]|ex]]; [|discriminate].
      intros [= <- <-]. destruct (ChaosStep.expected_slo step); simpl;
        intros [= <-]; simpl; auto.
  - destruct (py_eq_str (ChaosStep.action step) "check-metric"); [|discriminate].
    destruct (truthy (ChaosStep.query step)); simpl; [|discriminate].
    destruct (fetch_value _ _ w) as [w1 [value|ex]]; [|discriminate].
    intros [= <- <-]. destruct (ChaosStep.expected_slo step) as [slo|];
      destruct (is_none value) eqn:Hn; simpl; rewrite ?Hn; simpl;
      try (intros [= <-]; simpl; by auto).
    destruct (if py_eq_str _ _ then _ else _) as [[]|]; simpl;
      try discriminate; intros [= <-]; simpl; auto.
Qed.

(** X6. No record written by [run] holds an entry whose SLO status is
    [violated]: the step that violates its expectation is not recorded, only
    the failure text tells of it.  An entry has no SLO status, or [pending],
    or [met]. *)
Theorem stored_verdict_never_violated scenarios endpoint scenario_id dry_run
    note now w d w' d' res scenario payload :
  scenarios !! scenario_id = Some scenario →
  run scenarios endpoint scenario_id dry_run note now w d = (w', d', res) →
  written d'
  = Recorder.file_path (new_ChaosRunRecorder scenario note dry_run now) :: written d →
  files d' !! Recorder.file_path (new_ChaosRunRecorder scenario note dry_run now)
  = Some payload →
  Forall slo_verdict_stored (Payload.steps payload).
Proof.
  intros Hsc Hrun Hw Hfile.
  destruct (run_record _ _ _ _ _ _ _ _ _ _ _ _ Hsc Hrun Hw)
    as (r1 & stop & p & Hloop & Hfiles & Hsteps & _).
  rewrite Hfiles, lookup_insert_eq in Hfile. injection Hfile as <-.
  rewrite Hsteps.
  destruct (run_steps_Forall slo_verdict_stored _ _ _ _ _ _ _ _
              (λ step w1 w2 entry, entry_of_verdict _ _ step w1 w2 entry) Hloop)
    as (entries & -> & Hall).
  done.
Qed.




(** ** The recorder *)




(** ** Construction of a scenario, continued *)

(** Reading of the lookups [raw[key]] that returned. *)
Ltac getitem_inv :=
  repeat match goal with
  | E : match dict_get ?k ?d with Some _ => _ | None => _ end = Return _ |- _ =>
      let G := fresh "G" in
      destruct (dict_get k d) eqn:G; [injection E as ->|discriminate E]
  end.

Lemma parse_step_built raw step :
  parse_step raw = Return step → built_from raw step.
Proof.
  unfold parse_step, built_from. intros Hp.
  destruct raw as [ |b|z|f|s|l|d]; try (bind_inv Hp; discriminate Hp).
  exists d. split; [done|]. bind_inv Hp; injection Hp as <-; getitem_inv; by simpl.
Qed.

Lemma parse_steps_built raws steps :
  parse_steps raws = Return steps → Forall2 built_from raws steps.
Proof.
  revert steps. induction raws as [|r raws IH]; intros steps Hp; simpl in Hp.
  - injection Hp as <-. constructor.
  - bind_inv Hp. injection Hp as <-. constructor; [by apply parse_step_built|].
    by apply IH.
Qed.

(** X12. A scenario that [from_dict] returns mirrors its definition: the
    four text fields are the values under their keys, [steady_state_check]
    is the value under its key or an empty dictionary, and the steps are
    those of the definition, as many and in the same order, each with the
    [id] and [action] of its raw step and with [None] for every optional
    field the raw step does not have. *)
Theorem from_dict_mirrors_definition data sc :
  from_dict data = Return sc →
  dict_get "id" data = Some (ChaosScenario.id sc)
  ∧ dict_get "title" data = Some (ChaosScenario.title sc)
  ∧ dict_get "description" data = Some (ChaosScenario.description sc)
  ∧ dict_get "impact" data = Some (ChaosScenario.impact sc)
  ∧ ChaosScenario.steady_state_check sc
    = default (PDict []) (dict_get "steady_state_check" data)
  ∧ ∃ raw raws, dict_get "steps" data = Some raw ∧ py_iter raw = Return raws
      ∧ Forall2 built_from raws (ChaosScenario.steps sc).
Proof.
  unfold from_dict. simpl. intros Hf.
  destruct (dict_get "steps" data) as [raw|] eqn:Hraw; [|discriminate Hf].
  unfold mbind, outcome_bind in Hf. simpl in Hf.
  destruct (py_iter raw) as [raws|] eqn:Hit; [|discriminate Hf].
  destruct (parse_steps raws) as [steps|] eqn:Hp; [|discriminate Hf].
  apply parse_steps_built in Hp.
  destruct steps as [|st sts]; [destruct (dict_get "id" data); discriminate Hf|].
  destruct (dict_get "id" data); [|discriminate Hf].
  destruct (dict_get "title" data); [|discriminate Hf].
  destruct (dict_get "description" data); [|discriminate Hf].
  destruct (dict_get "impact" data); [|discriminate Hf].
  injection Hf as <-. simpl. repeat split. by exists raw, raws.
Qed.

(** X13. The expectation of a step comes from its raw [expected_slo] and
    from nothing else.  A step has no expectation exactly when the key is
    missing or its value is falsy; otherwise the expectation holds the
    [name] and [comparison] found there and [float] of the [threshold]. *)
Theorem parse_step_expectation d step :
  parse_step (PDict d) = Return step →
  match dict_get "expected_slo" d with
  | None => ChaosStep.expected_slo step = None
  | Some es =>
      if truthy es
      then ∃ slo, ChaosStep.expected_slo step = Some slo ∧ slo_built_from es slo
                  ∧ supported (SLOExpectation.comparison slo)
      else ChaosStep.expected_slo step = None
  end.
Proof.
  unfold parse_step. simpl. intros Hp.
  destruct (dict_get "expected_slo" d) as [es|] eqn:Hes; simpl in Hp.
  - destruct (truthy es) eqn:Ht.
    + bind_inv Hp. injection Hp as <-. simpl.
      match goal with E : context [new_SLOExpectation] |- _ => rename E into Hslo end.
      bind_inv Hslo. injection Hslo as <-.
      match goal with E : new_SLOExpectation _ _ _ = Return _ |- _ =>
        apply new_SLOExpectation_inv in E; destruct E as [-> ?] end.
      eexists. split; [reflexivity|]. split; [|done].
      unfold slo_built_from. simpl. eauto 10.
    + bind_inv Hp. by injection Hp as <-.
  - bind_inv Hp. by injection Hp as <-.
Qed.

(** X14. Construction reports the first invalid step: when the steps before
    it are valid, the exception of that step is what [from_dict] raises,
    whatever comes after it. *)
Theorem from_dict_first_invalid_step data pre bad post steps ex :
  dict_get "steps" data = Some (PList (pre ++ bad :: post)) →
  parse_steps pre = Return steps →
  parse_step bad = Raise ex →
  from_dict data = Raise ex.
Proof.
  intros Hsteps Hpre Hbad.
  assert (Hp : parse_steps (pre ++ bad :: post) = Raise ex).
  { clear Hsteps. revert steps Hpre. induction pre as [|r pre IH]; intros steps Hpre.
    - simpl. by rewrite Hbad.
    - simpl in *. destruct (parse_step r) as [st|]; [|discriminate Hpre].
      unfold mbind, outcome_bind in *. simpl in *.
      destruct (parse_steps pre) as [sts|]; [|discriminate Hpre].
      by rewrite (IH sts eq_refl). }
  unfold from_dict. simpl. rewrite Hsteps. unfold mbind, outcome_bind. simpl.
  by rewrite Hp.
Qed.

(** X15. A non-empty [expected_slo] object that lacks [name], [comparison]
    or [threshold] makes the construction of its step raise [KeyError] for
    the first of these keys that is missing. *)
Theorem parse_step_missing_slo_key d e :
  dict_get "expected_slo" d = Some (PDict e) →
  e ≠ [] →
  dict_get "name" e = None ∨ dict_get "comparison" e = None
  ∨ dict_get "threshold" e = None →
  ∃ k, parse_step (PDict d) = Raise (KeyError k)
       ∧ dict_get k e = None
       ∧ (k = "name"
          ∨ (k = "comparison" ∧ is_Some (dict_get "name" e))
          ∨ (k = "threshold" ∧ is_Some (dict_get "name" e)
             ∧ is_Some (dict_get "comparison" e))).
Proof.
  intros Hes Hne Hmiss. unfold parse_step. simpl. rewrite Hes. simpl.
  destruct e as [|kv e']; [done|]. cbn [truthy].
  unfold mbind, outcome_bind. cbn [py_getitem].
  destruct (dict_get "name" (kv :: e')) as [n|] eqn:Hn;
    [|exists "name"; by auto].
  destruct (dict_get "comparison" (kv :: e')) as [c|] eqn:Hc;
    [|exists "comparison"; by eauto 10].
  destruct (dict_get "threshold" (kv :: e')) as [t|] eqn:Ht;
    [|exists "threshold"; by eauto 10].
  by destruct Hmiss as [?|[?|?]].
Qed.

(** X16. A definition without steps (an empty list, or an empty object or
    string in its place) is refused with [ValueError] naming the scenario
    id; if the id is missing as well, [KeyError] for [id] takes its place. *)
Theorem from_dict_zero_steps data raw :
  dict_get "steps" data = Some raw →
  py_iter raw = Return [] →
  from_dict data
  = match dict_get "id" data with
    | Some id => Raise (ValueError ("场景 " +:+ py_str id +:+ " 未定义任何步骤"))
    | None => Raise (KeyError "id")
    end.
Proof.
  intros Hraw Hit. unfold from_dict. simpl. rewrite Hraw.
  unfold mbind, outcome_bind. simpl. rewrite Hit. simpl.
  by destruct (dict_get "id" data).
Qed.

(** X17. The constructor of [SLOExpectation] accepts exactly the two
    operators: it returns, with the three fields as given, when
    [comparison] is the string [<=] or [>=]; any other value is refused,
    with [TypeError] for a list or a dictionary (the membership test cannot
    hash it) and with [ValueError], naming the value, otherwise. *)
Theorem new_SLOExpectation_accepts name c t :
  (supported c →
   new_SLOExpectation name c t = Return (SLOExpectation.mk name c t))
  ∧ (¬ supported c →
     new_SLOExpectation name c t
     = Raise (match c with
              | PList _ | PDict _ => TypeError (interp_msg OpHash c)
              | _ => ValueError ("不支持的 comparison: " +:+ py_str c)
              end)).
Proof.
  unfold new_SLOExpectation, __post_init__, supported. simpl. split.
  - by intros [-> | ->].
  - intros Hn. destruct c as [ |b|z|f|s|l|d]; simpl; try done.
    destruct (String.eqb_spec s "<=") as [->|_]; [destruct Hn; auto|].
    destruct (String.eqb_spec s ">=") as [->|_]; [destruct Hn; auto|].
    done.
Qed.

(** ** The catalog *)

Lemma omap_lookup {A B} (f : A → option B) (l : list A) :
  Forall (λ x, is_Some (f x)) l →
  Forall2 (λ x y, f x = Some y) l (omap f l).
Proof.
  induction 1 as [|x l [y Hy] _ IH]; simpl; [constructor|].
  rewrite Hy. by constructor.
Qed.

(** X18. [list_scenarios] yields every scenario of the catalog once, in the
    increasing order of the keys. *)
Theorem list_scenarios_sorted (scenarios : gmap string ChaosScenario.t) :
  ∃ ks : list string,
    StronglySorted String.le ks
    ∧ NoDup ks
    ∧ (∀ k, k ∈ ks ↔ is_Some (scenarios !! k))
    ∧ Forall2 (λ k sc, scenarios !! k = Some sc) ks (list_scenarios scenarios)
    ∧ length (list_scenarios scenarios) = size scenarios.
Proof.
  set (ks := merge_sort String.le (elements (dom scenarios))).
  assert (Hperm : ks ≡ₚ elements (dom scenarios)) by apply merge_sort_Permutation.
  assert (Hin : ∀ k, k ∈ ks ↔ is_Some (scenarios !! k)).
  { intros k. by rewrite Hperm, elem_of_elements, elem_of_dom. }
  assert (Hall : Forall2 (λ k sc, scenarios !! k = Some sc) ks
                   (list_scenarios scenarios)).
  { apply omap_lookup, Forall_forall. intros k Hk. by apply Hin. }
  exists ks. split; [apply StronglySorted_merge_sort; apply _|].
  split; [rewrite Hperm; apply NoDup_elements|].
  split; [done|]. split; [done|].
  rewrite <- (Forall2_length _ _ _ Hall), Hperm, <- size_dom. done.
Qed.

(** ** The name of the record *)

Lemma replace_space_chars s :
  Forall (λ c, c ≠ " "%char) (list_ascii_of_string (replace_space s))
  ∧ String.length (replace_space s) = String.length s.
Proof.
  induction s as [|c s [IH1 IH2]]; simpl; [by split|]. split.
  - constructor; [|done]. by destruct (Ascii.eqb_spec c " ").
  - by rewrite IH2.
Qed.

Lemma replace_space_no_slash s :
  Forall (λ c, c ≠ "/"%char) (list_ascii_of_string s) →
  Forall (λ c, c ≠ "/"%char) (list_ascii_of_string (replace_space s)).
Proof.
  induction s as [|c s IH]; simpl; [done|]. intros Hs.
  inversion Hs as [|? ? Hc Hrest]; subst. constructor; [|by apply IH].
  by destruct (Ascii.eqb_spec c " ").
Qed.

Lemma chars_append a b :
  list_ascii_of_string (a +:+ b)
  = (list_ascii_of_string a ++ list_ascii_of_string b)%list.
Proof. induction a as [|c a IH]; [done|]. rewrite append_cons. simpl. by rewrite IH. Qed.

Lemma append_empty_r a : a +:+ "" = a.
Proof. induction a as [|c a IH]; [done|]. by rewrite append_cons, IH. Qed.

(** A name without [/] and of two characters or more is joined as it is. *)
Lemma path_join_plain dir name :
  Forall (λ c, c ≠ "/"%char) (list_ascii_of_string name) →
  (2 ≤ String.length name)%nat →
  path_join dir name = dir +:+ "/" +:+ name.
Proof.
  intros Hn Hlen. unfold path_join, path_parts.
  rewrite <- (append_empty_r name) at 1.
  rewrite (split_slash_prefix name "" "" [] Hn eq_refl), append_empty_r.
  cbn [List.filter].
  destruct name as [|c1 [|c2 name]]; simpl in Hlen; try lia.
  simpl. by destruct (Ascii.eqb c1 ".").
Qed.

(** X19. The note enters the name of the record with every space replaced
    by an underscore: the sanitised note has the length of the note and no
    space.  The name is joined to the run directory as a path, so a [/] in
    the note or in the scenario id opens a sub-directory; without one the
    path is the directory, the time stamp, the id and the sanitised note
    put together.  A missing note and an empty note give the same path,
    without suffix. *)
Theorem note_in_file_name scenario dry_run now note :
  Recorder.file_path (new_ChaosRunRecorder scenario None dry_run now)
  = Recorder.file_path (new_ChaosRunRecorder scenario (Some "") dry_run now)
  ∧ (note ≠ "" →
     Recorder.file_path (new_ChaosRunRecorder scenario (Some note) dry_run now)
     = path_join RUN_DIR
         (strftime now +:+ "_" +:+ py_str (ChaosScenario.id scenario)
            +:+ ("_" +:+ replace_space note) +:+ ".json")
     ∧ Forall (λ c, c ≠ " "%char) (list_ascii_of_string (replace_space note))
     ∧ String.length (replace_space note) = String.length note
     ∧ (Forall (λ c, c ≠ "/"%char)
          (list_ascii_of_string (py_str (ChaosScenario.id scenario))) →
        Forall (λ c, c ≠ "/"%char) (list_ascii_of_string note) →
        Recorder.file_path (new_ChaosRunRecorder scenario (Some note) dry_run now)
        = RUN_DIR +:+ "/" +:+ strftime now +:+ "_"
            +:+ py_str (ChaosScenario.id scenario) +:+ ("_" +:+ replace_space note)
            +:+ ".json")).
Proof.
  split; [done|]. intros Hne. unfold new_ChaosRunRecorder. simpl.
  destruct (String.eqb_spec note "") as [|_]; [done|].
  destruct (replace_space_chars note) as [Hc Hl].
  assert (Hr : replace_space note ≠ "").
  { intros Hr. rewrite Hr in Hl. destruct note; [done|discriminate Hl]. }
  destruct (String.eqb_spec (replace_space note) "") as [|_]; [done|].
  split; [done|]. split; [done|]. split; [done|]. intros Hid Hnote.
  destruct (strftime_no_slash now) as [Hs Hlen].
  apply path_join_plain.
  - rewrite !chars_append. repeat apply Forall_app_2; try done.
    + by repeat constructor.
    + by repeat constructor.
    + by apply replace_space_no_slash.
    + by repeat constructor.
  - destruct (strftime now) as [|c1 [|c2 rest]]; simpl in Hlen; try lia.
    rewrite !append_cons. simpl. lia.
Qed.

(** ** Failure of the metric endpoint *)

(** X20. A failing request is not degraded to [skipped]: when the request
    to a configured endpoint raises, the metric check raises the same
    exception, in a dry run as in a real run, and the loop of [run] stops
    at that step without recording it. *)
Theorem metric_failure_is_raised e step dry_run r w w' ex :
  py_eq_str (ChaosStep.action step) "check-metric" = true →
  truthy (ChaosStep.query step) = true →
  e ≠ "" →
  urlopen_json (e +:+ "?" +:+ urlencode_query (ChaosStep.query step)) w
  = (w', Raise ex) →
  _execute_step (Some e) step dry_run w = (w', Raise ex)
  ∧ run_step (Some e) dry_run step r w = (w', r, Some ex).
Proof.
  intros Hm Hq He Hurl.
  assert (Hs : py_eq_str (ChaosStep.action step) "shell" = false).
  { destruct (ChaosStep.action step); simpl in *; try done.
    apply String.eqb_eq in Hm as ->. done. }
  assert (Hex : _execute_step (Some e) step dry_run w = (w', Raise ex)).
  { unfold _execute_step, fetch_value. rewrite Hs, Hm, Hq. simpl.
    destruct (String.eqb_spec e "") as [|_]; [done|]. by rewrite Hurl. }
  split; [done|]. unfold run_step. by rewrite Hex.
Qed.

End Further.

(** * The further properties at concrete inputs *)

Section FurtherExamples.
Import Demo.

Lemma fetch_value_optional_float_demo :
  fetch_value (H := host80) None (PStr "q1") [PStr "echo ok"]
  = ([PStr "echo ok"], Return PNone)
  ∧ fetch_value (H := host80) (Some "") (PStr "q1") [] = ([], Return PNone)
  ∧ (PFloat f80 = PNone ∨ ∃ f, PFloat f80 = PFloat f).
Proof.
  split; [|split].
  - apply (proj1 (fetch_value_optional_float (H := host80) None (PStr "q1")
                    [PStr "echo ok"])). by left.
  - apply (proj1 (fetch_value_optional_float (H := host80) (Some "") (PStr "q1")
                    [])). by right.
  - apply (proj2 (fetch_value_optional_float (H := host80) endpoint (PStr "q1") [])
             [] (PFloat f80)).
    vm_compute. reflexivity.
Defined.

Lemma metric_value_zero_counts_demo :
  ∃ result,
    _execute_step (H := host0) endpoint step2 false [] = ([], Return result)
    ∧ dict_get "status" result = Some (PStr "success")
    ∧ dict_get "metric_value" result = Some (PFloat (S754_zero false))
    ∧ ¬ slo_returns (H := host0) "pending" step2 result.
Proof.
  apply (metric_value_zero_counts (H := host0) endpoint step2 false [] []
           (S754_zero false)); vm_compute; reflexivity.
Defined.

Lemma execute_returns_well_formed_demo :
  well_formed step1
  ∧ (dict_get "status" result80 = Some (PStr "success")
     ∨ dict_get "status" result80 = Some (PStr "skipped"))
  ∧ dict_get "observation" result80 = Some PNone.
Proof.
  destruct (execute_returns_well_formed (H := host80) endpoint step2 false [] []
              result80) as (_ & Hst & Hobs); [vm_compute; reflexivity|].
  destruct (execute_returns_well_formed (H := host80) endpoint step1 true [] []
              [("status", PStr "skipped"); ("observation", PNone);
               ("command", PStr "echo ok"); ("output", PStr "dry-run 未执行")])
    as (Hwf & _); [vm_compute; reflexivity|].
  split; [exact Hwf|]. split; [exact Hst|exact Hobs].
Defined.

Lemma dry_run_only_guards_shell_demo :
  run_steps (H := host150) endpoint true [step2] recorder0 []
  = run_steps (H := host150) endpoint false [step2] recorder0 [].
Proof.
  apply (dry_run_only_guards_shell (H := host150) endpoint [step2] recorder0 []).
  repeat constructor.
Defined.

Lemma stored_detail_is_result_then_report_demo :
  ∃ executed,
    executed `prefix_of` ChaosScenario.steps scenario
    ∧ Forall2 (λ step entry,
                 ∃ w1 w2, entry_of (H := host80) None true step w1 w2 entry)
        executed (Payload.steps dry_payload).
Proof.
  apply (stored_detail_is_result_then_report (H := host80) catalog None "demo"
           true None t0 [] empty_disk [] dry_disk (Return dry_path) scenario
           dry_payload); vm_compute; reflexivity.
Defined.

Lemma stored_verdict_never_violated_demo :
  Forall slo_verdict_stored (Payload.steps dry_payload).
Proof.
  apply (stored_verdict_never_violated (H := host80) catalog None "demo"
           true None t0 [] empty_disk [] dry_disk (Return dry_path) scenario
           dry_payload); vm_compute; reflexivity.
Defined.






Lemma from_dict_mirrors_definition_demo :
  ∃ raw raws,
    dict_get "steps" raw_scenario = Some raw
    ∧ py_iter (H := host80) raw = Return raws
    ∧ Forall2 built_from raws (ChaosScenario.steps broken_scenario).
Proof.
  apply (from_dict_mirrors_definition (H := host80) raw_scenario broken_scenario).
  reflexivity.
Defined.

Lemma parse_step_expectation_demo :
  ∃ slo,
    ChaosStep.expected_slo step2 = Some slo
    ∧ slo_built_from (H := host80)
        (PDict [("name", PStr "latency"); ("comparison", PStr "<=");
                ("threshold", PInt 100)]) slo
    ∧ supported (SLOExpectation.comparison slo).
Proof.
  apply (parse_step_expectation (H := host80) raw_step2 step2).
  vm_compute. reflexivity.
Defined.

Lemma from_dict_first_invalid_step_demo :
  from_dict (H := host80) raw_second_invalid = Raise (KeyError "id").
Proof.
  apply (from_dict_first_invalid_step (H := host80) raw_second_invalid
           [PDict [("id", PStr "s1"); ("action", PStr "shell");
                   ("command", PStr "echo ok")]]
           (PDict [("action", PStr "shell")])
           [PDict [("id", PStr "s3"); ("action", PStr "shell")]]
           [step1]); reflexivity.
Defined.

Lemma parse_step_missing_slo_key_demo :
  ∃ k, parse_step (H := host80) (PDict raw_step_nameless) = Raise (KeyError k)
       ∧ dict_get k [("name", PStr "latency")] = None
       ∧ (k = "name"
          ∨ (k = "comparison" ∧ is_Some (dict_get "name" [("name", PStr "latency")]))
          ∨ (k = "threshold" ∧ is_Some (dict_get "name" [("name", PStr "latency")])
             ∧ is_Some (dict_get "comparison" [("name", PStr "latency")]))).
Proof.
  apply (parse_step_missing_slo_key (H := host80) raw_step_nameless
           [("name", PStr "latency")]); [reflexivity|discriminate|].
  right. left. reflexivity.
Defined.

Lemma from_dict_zero_steps_demo :
  from_dict (H := host80) raw_no_steps
  = Raise (ValueError "场景 empty 未定义任何步骤").
Proof.
  apply (from_dict_zero_steps (H := host80) raw_no_steps (PList [])); reflexivity.
Defined.

Lemma new_SLOExpectation_accepts_demo :
  new_SLOExpectation (H := host80) (PStr "latency") (PStr ">=") f100
  = Return (SLOExpectation.mk (PStr "latency") (PStr ">=") f100)
  ∧ new_SLOExpectation (H := host80) (PStr "latency") (PStr "<") f100
    = Raise (ValueError "不支持的 comparison: <")
  ∧ ∃ msg, new_SLOExpectation (H := host80) (PStr "latency") (PList []) f100
           = Raise (TypeError msg).
Proof.
  split; [|split].
  - apply (proj1 (new_SLOExpectation_accepts (H := host80) (PStr "latency")
                    (PStr ">=") f100)).
    by right.
  - apply (proj2 (new_SLOExpectation_accepts (H := host80) (PStr "latency")
                    (PStr "<") f100)).
    intros [Hx|Hx]; discriminate Hx.
  - eexists.
    apply (proj2 (new_SLOExpectation_accepts (H := host80) (PStr "latency")
                    (PList []) f100)).
    intros [Hx|Hx]; discriminate Hx.
Defined.

Lemma note_in_file_name_demo :
  Recorder.file_path
    (new_ChaosRunRecorder (H := host80) scenario (Some "game day 3") false t0)
  = "runs/20261104T100307Z_demo_game_day_3.json".
Proof.
  destruct (proj2 (note_in_file_name (H := host80) scenario false t0 "game day 3"))
    as (_ & _ & _ & Hpath); [discriminate|].
  rewrite Hpath; [vm_compute; reflexivity|vm_compute; repeat constructor; discriminate..].
Defined.

Lemma metric_failure_is_raised_demo :
  _execute_step (H := host_down) endpoint step2 true []
  = ([], Raise (OSError "connection refused"))
  ∧ run_step (H := host_down) endpoint true step2 recorder0 []
    = ([], recorder0, Some (OSError "connection refused")).
Proof.
  apply (metric_failure_is_raised (H := host_down) "http://monitor/api" step2
           true recorder0 [] [] (OSError "connection refused"));
    try reflexivity. discriminate.
Defined.

End FurtherExamples.
